(** * ygrpcgoutil: reflection-based field access and time helpers

    A shallow embedding of the field accessors ([GetField],
    [GetFieldKind], [GetFieldType], [HasField], [SetField] and
    [SetFields]), of the walks over the fields of a struct ([Fields],
    [Items], [Tags], [GetStructAllFieldNamesAndJsonTag] and their deep
    variants) and of [TimeISOStr] and [ParseUTCTime], together with
    the parts of the Go runtime they call: fixed-width integer
    conversions, [strings.Contains], [strings.Cut],
    [strconv.FormatInt], [fmt.Sprintf] with the verb [%02d],
    [encoding/hex] and [uuid.UUID.String].

    Go strings are byte sequences and are modelled by [string]; a
    [[]uint8] or a [[16]uint8] is a [list byte]; a fixed-width integer
    is a [Z] with its wrap-around written out; a map with string keys
    is a [gmap]. *)

From Stdlib Require Import ZArith Lia List Ascii String.
From Stdlib Require Import Strings.Byte.
From stdpp Require Import base list strings gmap.

Local Open Scope Z_scope.

(** ** Fixed-width integers *)

Module GoInt.

(** Conversion to an unsigned [w]-bit type keeps the low [w] bits. *)
Definition to_unsigned (w : Z) (z : Z) : Z := Z.land z (Z.ones w).

(** Conversion to a signed [w]-bit type keeps the low [w] bits and
    reads bit [w-1] as the sign. *)
Definition to_signed (w : Z) (z : Z) : Z :=
  let u := to_unsigned w z in
  if Z.testbit u (w - 1) then u - 2 ^ w else u.

Definition to_int32 : Z -> Z := to_signed 32.
Definition to_uint32 : Z -> Z := to_unsigned 32.
Definition to_int64 : Z -> Z := to_signed 64.

Definition int32_range (z : Z) : Prop := - 2 ^ 31 <= z < 2 ^ 31.
Definition uint32_range (z : Z) : Prop := 0 <= z < 2 ^ 32.
Definition int64_range (z : Z) : Prop := - 2 ^ 63 <= z < 2 ^ 63.
Definition uint64_range (z : Z) : Prop := 0 <= z < 2 ^ 64.

(** int64 arithmetic: the mathematical result, wrapped.  Go's [/]
    truncates toward zero. *)
Definition quo64 (a b : Z) : Z := to_int64 (Z.quot a b).
Definition mul64 (a b : Z) : Z := to_int64 (a * b).
Definition sub64 (a b : Z) : Z := to_int64 (a - b).

End GoInt.

(** ** Package [strings] *)

Module strings.

(** [strings.Contains(s, substr)]: [substr] starts at some position
    of [s]. *)
Fixpoint Contains (s substr : string) : bool :=
  String.prefix substr s
  || match s with
     | EmptyString => false
     | String _ rest => Contains rest substr
     end.

End strings.

(** ** Package [strconv] *)

Module strconv.

Definition digit (d : Z) : ascii := ascii_of_nat (48 + Z.to_nat d).

(** The digit loop of [formatBits] for base 10: the last digit is
    written first, in front of what is already there.  [fuel] bounds
    the number of digits; 20 are enough for any 64-bit value. *)
Fixpoint formatBits (fuel : nat) (u : Z) (acc : string) : string :=
  match fuel with
  | O => acc
  | S fuel' =>
      let acc' := String (digit (u mod 10)) acc in
      if u <? 10 then acc' else formatBits fuel' (u / 10) acc'
  end.

Definition FormatUint (u : Z) : string := formatBits 20 u "".

(** [strconv.FormatInt(i, 10)]: a minus sign for negative values,
    then the digits of the magnitude. *)
Definition FormatInt (i : Z) : string :=
  if i <? 0 then String "-" (FormatUint (- i)) else FormatUint i.

(** [strconv.Itoa(i)] is [FormatInt(int64(i), 10)]. *)
Definition Itoa (i : Z) : string := FormatInt i.

End strconv.

(** ** Package [fmt] *)

Module fmt.

Fixpoint zeros (n : nat) : string :=
  match n with
  | O => ""
  | S n' => String "0" (zeros n')
  end.

(** The verb [%02d] on a signed integer ([fmtInteger] with the zero
    flag and width 2): the digits are padded with zeros up to the
    width, less one when a sign has to be written, and the sign goes
    in front. *)
Definition fmt_02d (v : Z) : string :=
  let negative := v <? 0 in
  let digits := strconv.FormatUint (Z.abs v) in
  let prec := if negative then 1%nat else 2%nat in
  let padded := zeros (prec - String.length digits) +:+ digits in
  if negative then String "-" padded else padded.

(** [fmt.Sprintf("%02d:%02d:%02d", a, b, c)]. *)
Definition Sprintf_clock (a b c : Z) : string :=
  fmt_02d a +:+ ":" +:+ fmt_02d b +:+ ":" +:+ fmt_02d c.

(** [fmt.Println] writes its operands separated by spaces; a line of
    standard output is kept without its final newline. *)
Fixpoint Println (operands : list string) : string :=
  match operands with
  | [] => ""
  | [a] => a
  | a :: rest => a +:+ " " +:+ Println rest
  end.

End fmt.

(** ** Packages [encoding/hex] and [github.com/google/uuid] *)

Module hex.

Definition hextable : string := "0123456789abcdef".

Definition hexchar (n : N) : ascii :=
  match String.get (N.to_nat n) hextable with
  | Some c => c
  | None => "0"%char
  end.

(** [hex.Encode]: two characters per byte, high nibble first. *)
Fixpoint Encode (src : list byte) : string :=
  match src with
  | [] => ""
  | v :: rest =>
      String (hexchar (N.shiftr (Byte.to_N v) 4))
        (String (hexchar (N.land (Byte.to_N v) 15)) (Encode rest))
  end.

End hex.

Module uuid.

(** The slice expression [u[lo:hi]]. *)
Definition slice (u : list byte) (lo hi : nat) : list byte :=
  firstn (hi - lo) (skipn lo u).

(** [UUID.String] ([encodeHex]): five hexadecimal groups with a
    hyphen written at offsets 8, 13, 18 and 23 of the buffer. *)
Definition String_ (u : list byte) : string :=
  hex.Encode (slice u 0 4) +:+ "-" +:+
  hex.Encode (slice u 4 6) +:+ "-" +:+
  hex.Encode (slice u 6 8) +:+ "-" +:+
  hex.Encode (slice u 8 10) +:+ "-" +:+
  hex.Encode (slice u 10 16).

End uuid.

(** ** Package [time], and timeutil.go

    [time.Time], its zero value, [Time.Format] and [time.Parse] belong
    to the standard library; the development is parametric in them. *)

Class TimeLib := {
  Time : Type;
  Time_zero : Time;                                  (* time.Time{} *)
  time_Format : Time -> string -> string;            (* t.Format(layout) *)
  time_Parse : string -> string -> Time + string     (* time.Parse(layout, value) *)
}.

Definition ISOTimeFormat : string := "2006-01-02 15:04:05".

Definition TimeISOStr `{TimeLib} (t : Time) : string :=
  time_Format t ISOTimeFormat.

Definition ParseUTCTime `{TimeLib} (timeStr : string) : Time :=
  match time_Parse ISOTimeFormat timeStr with
  | inl result => result
  | inr _ => Time_zero
  end.

(** ** Package [reflect]: types, dynamic values, structs *)

Inductive Kind : Type :=
| KBool | KInt | KInt32 | KInt64 | KUint32 | KUint64 | KString
| KStruct | KSlice | KArray | KMap.

(** The types a field or a value can have.  [TNamed n t] is a defined
    type ([type N t]) printed as [n]; it shares the kind of [t] and is
    identical to no other type. *)
Inductive GoType : Type :=
| TBool | TInt | TInt32 | TInt64 | TUint32 | TUint64 | TString
| TTime                                   (* time.Time *)
| TBytes                                  (* []uint8 *)
| TArr16                                  (* [16]uint8 *)
| TMapAny                                 (* map[string]interface {} *)
| TNamed (name : string) (underlying : GoType).

Global Instance GoType_eq_dec : EqDecision GoType.
Proof. solve_decision. Defined.

Fixpoint KindOf (t : GoType) : Kind :=
  match t with
  | TBool => KBool
  | TInt => KInt
  | TInt32 => KInt32
  | TInt64 => KInt64
  | TUint32 => KUint32
  | TUint64 => KUint64
  | TString => KString
  | TTime => KStruct
  | TBytes => KSlice
  | TArr16 => KArray
  | TMapAny => KMap
  | TNamed _ underlying => KindOf underlying
  end.

(** [Type.String()]. *)
Definition TypeString (t : GoType) : string :=
  match t with
  | TBool => "bool"
  | TInt => "int"
  | TInt32 => "int32"
  | TInt64 => "int64"
  | TUint32 => "uint32"
  | TUint64 => "uint64"
  | TString => "string"
  | TTime => "time.Time"
  | TBytes => "[]uint8"
  | TArr16 => "[16]uint8"
  | TMapAny => "map[string]interface {}"
  | TNamed name _ => name
  end.

(** A non-nil [interface{}]: a value together with its dynamic type.
    [DNamed n d] is the value [d] converted to the defined type [n]. *)
Local Unset Elimination Schemes.
Inductive Dyn `{TimeLib} : Type :=
| DBool (b : bool)
| DInt (i : Z)
| DInt32 (i : Z)
| DInt64 (i : Z)
| DUint32 (u : Z)
| DUint64 (u : Z)
| DString (s : string)
| DTime (t : Time)
| DBytes (b : list byte)
| DArr16 (a : list byte)
| DMap (m : list (string * option Dyn))
| DNamed (name : string) (d : Dyn).
Local Set Elimination Schemes.

(** An [interface{}]; [None] is the nil interface, for which
    [reflect.ValueOf] gives the invalid [Value]. *)
Definition Iface `{TimeLib} : Type := option Dyn.

(** [reflect.ValueOf(d).Type()]. *)
Fixpoint TypeOf `{TimeLib} (d : Dyn) : GoType :=
  match d with
  | DBool _ => TBool
  | DInt _ => TInt
  | DInt32 _ => TInt32
  | DInt64 _ => TInt64
  | DUint32 _ => TUint32
  | DUint64 _ => TUint64
  | DString _ => TString
  | DTime _ => TTime
  | DBytes _ => TBytes
  | DArr16 _ => TArr16
  | DMap _ => TMapAny
  | DNamed name d' => TNamed name (TypeOf d')
  end.

(** [json.Marshal] on a [map[string]interface {}] belongs to the
    standard library as well. *)
Class JSONLib `{TimeLib} := {
  json_Marshal : list (string * option Dyn) -> string + string
}.

(** A struct field: its name, declared type, whether it is exported
    ([PkgPath == ""]) and its current value. *)
Record Field `{TimeLib} : Type := mkField {
  fname : string;
  ftype : GoType;
  exported : bool;
  fvalue : Dyn
}.
Arguments mkField {_} _ _ _ _.

(** A struct without embedded fields: its fields in declaration
    order. *)
Abbreviation Struct := (list Field).

Definition set_fvalue `{TimeLib} (f : Field) (v : Dyn) : Field :=
  {| fname := fname f; ftype := ftype f; exported := exported f; fvalue := v |}.

(** [Value.FieldByName]: the first field carrying the name, with its
    index; the empty name finds nothing. *)
Definition FieldByName `{TimeLib} (s : Struct) (name : string)
  : option (nat * Field) :=
  if decide (name = "") then None
  else list_find (fun f => fname f = name) s.

(** What a caller can pass as [obj]. *)
Inductive Obj `{TimeLib} : Type :=
| ObjPtr (s : Struct)        (* a non-nil pointer to a struct, with the struct it points to *)
| ObjStruct (s : Struct)     (* a struct passed by value *)
| ObjNilPtr                  (* a nil pointer *)
| ObjPtrOther                (* a pointer to something that is not a struct *)
| ObjNil                     (* the nil interface *)
| ObjOther.                  (* a value of any other kind *)

(** ** Errors, panics and results *)

Inductive error : Type :=
| EfieldNameCountNotEqualToFieldValues
| ErrNonStruct
| ErrNoSuchField (name : string)
| ErrCannotSet (name : string)
| ErrInvalidType (name : string) (fieldType valType : GoType)
| ErrMarshal (msg : string).

(** [err.Error()]. *)
Definition Error (e : error) : string :=
  match e with
  | EfieldNameCountNotEqualToFieldValues =>
      "field name count not equal to field values"
  | ErrNonStruct => "cannot use GetField on a non-struct interface"
  | ErrNoSuchField name => "no such field: " +:+ name +:+ " in obj"
  | ErrCannotSet name => "cannot set " +:+ name +:+ " field value"
  | ErrInvalidType name fieldType valType =>
      name +:+ ": value type didn't match obj field type "
        +:+ TypeString fieldType +:+ ":" +:+ TypeString valType
  | ErrMarshal msg => msg
  end.

Inductive panic : Type :=
| PanicElem              (* reflect: call of reflect.Value.Elem on a non-pointer *)
| PanicFieldByName       (* reflect: call of reflect.Value.FieldByName on a non-struct *)
| PanicNilType           (* method call on the nil reflect.Type *)
| PanicInterface         (* reflect.Value.Interface on an unexported field *)
| PanicAssertion         (* interface conversion: a type assertion failed *)
| PanicSet               (* reflect.Set: value not assignable to the field's type *)
| PanicIndex.            (* index out of range *)

(** A call either returns its [error] result ([None] is the nil
    error) or panics. *)
Inductive outcome : Type :=
| Returns (err : option error)
| Panics (p : panic).

(** The result of a write: how the call ended, the object afterwards
    and the lines written to standard output. *)
Record SetResult `{TimeLib} : Type := mkSetResult {
  sr_outcome : outcome;
  sr_obj : Obj;
  sr_stdout : list string
}.
Arguments mkSetResult {_} _ _ _.

(** The result of a read: the pair Go returns, or a panic. *)
Inductive GetResult `{TimeLib} : Type :=
| GetReturns (v : Iface) (err : option error)
| GetPanics (p : panic).

(** ** reflections: [SetField], [GetField], [SetFields] *)

Definition microsecondsPerSecond : Z := 1000000.
Definition microsecondsPerMinute : Z := 60 * microsecondsPerSecond.
Definition microsecondsPerHour : Z := 60 * microsecondsPerMinute.

(** What the conversion switch of [SetField] does with a value whose
    type differs from the field's. *)
Inductive Coercion `{TimeLib} : Type :=
| Coerced (val : Dyn) (printed : list string)   (* goto SETVALUE with the new val *)
| CoerceError (e : error)                       (* return err *)
| AssertFails                                   (* value.(T) on a value of another type *)
| NoRule.                                       (* the switch is left without a match *)

Section Reflections.

Context `{JSONLib}.

(** The global [WarnInt2StrInSetField]. *)
Variable WarnInt2StrInSetField : bool.

(** The [int64] to [string] case. *)
Definition int64_to_string (name : string) (usec : Z) : string :=
  if strings.Contains name "Time" || strings.Contains name "time" then
    let hours := GoInt.quo64 usec microsecondsPerHour in
    let usec := GoInt.sub64 usec (GoInt.mul64 hours microsecondsPerHour) in
    let minutes := GoInt.quo64 usec microsecondsPerMinute in
    let usec := GoInt.sub64 usec (GoInt.mul64 minutes microsecondsPerMinute) in
    let seconds := GoInt.quo64 usec microsecondsPerSecond in
    fmt.Sprintf_clock hours minutes seconds
  else
    strconv.FormatInt usec.

(** The [switch structFieldType.Kind()] of [SetField], entered when
    the field's type and the value's type differ. *)
Definition coerce (name : string) (structFieldType : GoType) (value : Dyn)
  : Coercion :=
  match KindOf structFieldType with
  | KString =>
      let ts := TypeString (TypeOf value) in
      if (ts =? "time.Time")%string then
        match value with
        | DTime valTime => Coerced (DString (TimeISOStr valTime)) []
        | _ => AssertFails
        end
      else if (ts =? "[]uint8")%string then
        match value with
        | DBytes valUuid => Coerced (DString (string_of_list_byte valUuid)) []
        | _ => AssertFails
        end
      else if (ts =? "[16]uint8")%string then
        match value with
        | DArr16 uuid16 => Coerced (DString (uuid.String_ uuid16)) []
        | _ => AssertFails
        end
      else if (ts =? "map[string]interface {}")%string then
        match value with
        | DMap m =>
            match json_Marshal m with
            | inr err => CoerceError (ErrMarshal err)
            | inl b => Coerced (DString b) []
            end
        | _ =>
            (* a defined type is never printed as this literal *)
            AssertFails
        end
      else if (ts =? "int32")%string then
        let printed :=
          if WarnInt2StrInSetField
          then [fmt.Println ["setfield to string warn:"; name; ts]]
          else [] in
        match value with
        | DInt32 v32 => Coerced (DString (strconv.Itoa v32)) printed
        | _ => AssertFails
        end
      else if (ts =? "int64")%string then
        match value with
        | DInt64 usec => Coerced (DString (int64_to_string name usec)) []
        | _ => AssertFails
        end
      else NoRule
  | KInt32 =>
      match KindOf (TypeOf value) with
      | KUint32 =>
          match value with
          | DUint32 valU32 => Coerced (DInt32 (GoInt.to_int32 valU32)) []
          | _ => AssertFails
          end
      | KInt64 =>
          match value with
          | DInt64 valI64 => Coerced (DInt32 (GoInt.to_int32 valI64)) []
          | _ => AssertFails
          end
      | KUint64 =>
          match value with
          | DUint64 valU64 => Coerced (DInt32 (GoInt.to_int32 valU64)) []
          | _ => AssertFails
          end
      | _ => NoRule
      end
  | KUint32 =>
      match KindOf (TypeOf value) with
      | KInt32 =>
          match value with
          | DInt32 valI32 => Coerced (DUint32 (GoInt.to_uint32 valI32)) []
          | _ => AssertFails
          end
      | KInt64 =>
          match value with
          | DInt64 valI64 => Coerced (DUint32 (GoInt.to_uint32 valI64)) []
          | _ => AssertFails
          end
      | KUint64 =>
          match value with
          | DUint64 valU64 => Coerced (DUint32 (GoInt.to_uint32 valU64)) []
          | _ => AssertFails
          end
      | _ => NoRule
      end
  | _ => NoRule
  end.

(** [structFieldValue.Set(val)] on field [i] of the struct behind the
    pointer: the value has to be assignable to the field's type. *)
Definition Set_ (s : Struct) (i : nat) (fld : Field) (val : Dyn)
           (printed : list string) : SetResult :=
  if decide (ftype fld = TypeOf val) then
    mkSetResult (Returns None) (ObjPtr (<[i := set_fvalue fld val]> s)) printed
  else
    mkSetResult (Panics PanicSet) (ObjPtr s) printed.

Definition SetField (obj : Obj) (name : string) (value : Iface) : SetResult :=
  match value with
  | None =>
      (* ignore all invalid val *)
      mkSetResult (Returns None) obj []
  | Some val =>
      match obj with
      | ObjPtr s =>
          match FieldByName s name with
          | None => mkSetResult (Returns (Some (ErrNoSuchField name))) obj []
          | Some (i, fld) =>
              if negb (exported fld) then
                mkSetResult (Returns (Some (ErrCannotSet name))) obj []
              else
                let structFieldType := ftype fld in
                if decide (structFieldType = TypeOf val) then
                  Set_ s i fld val []
                else
                  match coerce name structFieldType val with
                  | Coerced val' printed => Set_ s i fld val' printed
                  | CoerceError e => mkSetResult (Returns (Some e)) obj []
                  | AssertFails => mkSetResult (Panics PanicAssertion) obj []
                  | NoRule =>
                      let invalidTypeError :=
                        ErrInvalidType name structFieldType (TypeOf val) in
                      mkSetResult (Returns (Some invalidTypeError)) obj
                        [fmt.Println [name; Error invalidTypeError]]
                  end
          end
      | ObjNilPtr | ObjPtrOther => mkSetResult (Panics PanicFieldByName) obj []
      | ObjStruct _ | ObjNil | ObjOther => mkSetResult (Panics PanicElem) obj []
      end
  end.

Definition GetField (obj : Obj) (name : string) : GetResult :=
  match obj with
  | ObjNil => GetPanics PanicNilType
  | ObjOther => GetReturns None (Some ErrNonStruct)
  | ObjNilPtr | ObjPtrOther => GetPanics PanicFieldByName
  | ObjPtr s | ObjStruct s =>
      match FieldByName s name with
      | None => GetReturns None (Some (ErrNoSuchField name))
      | Some (_, field) =>
          if exported field then GetReturns (Some (fvalue field)) None
          else GetPanics PanicInterface
      end
  end.

(** The [range] loop of [SetFields]: [i] is the index of the next
    name, [err] the named result so far. *)
Fixpoint SetFields_loop (obj : Obj) (i : nat) (fieldNames : list string)
         (fieldVals : list Iface) (err : option error)
         (printed : list string) : SetResult :=
  match fieldNames with
  | [] => mkSetResult (Returns err) obj printed
  | fieldName :: rest =>
      match fieldVals !! i with
      | None => mkSetResult (Panics PanicIndex) obj printed
      | Some fieldVal =>
          let r := SetField obj fieldName fieldVal in
          match sr_outcome r with
          | Panics p =>
              mkSetResult (Panics p) (sr_obj r) (printed ++ sr_stdout r)
          | Returns errTmp =>
              let err :=
                match errTmp with
                | Some _ => errTmp
                | None => err
                end in
              SetFields_loop (sr_obj r) (S i) rest fieldVals err
                             (printed ++ sr_stdout r)
          end
      end
  end.

Definition SetFields (obj : Obj) (fieldNames : list string)
           (fieldVals : list Iface) : SetResult :=
  if (length fieldVals <? length fieldNames)%nat then
    mkSetResult (Returns (Some EfieldNameCountNotEqualToFieldValues)) obj []
  else
    SetFields_loop obj 0 fieldNames fieldVals None [].

End Reflections.

(** ** Reference definitions, written from the documented behaviour *)

(** Truncation to 32 bits: two numbers that agree modulo [2^32]. *)
Definition same_low32 (a b : Z) : Prop := a mod 2 ^ 32 = b mod 2 ^ 32.

(** The integer carried by a value of one of the four plain integer
    types of 32 or 64 bits. *)
Definition int_payload `{TimeLib} (d : Dyn) : option Z :=
  match d with
  | DInt32 z | DInt64 z | DUint32 z | DUint64 z => Some z
  | _ => None
  end.

(** A value of a 32-bit integer type. *)
Definition int_of_type `{TimeLib} (t : GoType) (z : Z) : Dyn :=
  match t with
  | TUint32 => DUint32 z
  | _ => DInt32 z
  end.

Definition range_of_type (t : GoType) (z : Z) : Prop :=
  match t with
  | TUint32 => GoInt.uint32_range z
  | _ => GoInt.int32_range z
  end.

(** A field name that selects the clock rendering. *)
Definition time_named (name : string) : bool :=
  strings.Contains name "Time" || strings.Contains name "time".

(** A number in decimal, with one leading zero when it has a single
    digit. *)
Definition two_digits (n : Z) : string :=
  if (0 <=? n) && (n <? 10) then String "0" (strconv.FormatInt n)
  else strconv.FormatInt n.

(** A clock reading [hours:minutes:seconds] of a count of
    microseconds, for a given division, remainder and rendering of
    each component. *)
Definition clock_of (div md : Z -> Z -> Z) (render : Z -> string) (v : Z)
  : string :=
  render (div v 3600000000) +:+ ":" +:+
  render (div (md v 3600000000) 60000000) +:+ ":" +:+
  render (div (md v 60000000) 1000000).

(** The reading with division truncating toward zero. *)
Definition clock_text (v : Z) : string := clock_of Z.quot Z.rem two_digits v.

(** A number, whatever its sign, padded with zeros to two digits. *)
Definition padded_to_2_digits (n : Z) : string :=
  let ds := strconv.FormatUint (Z.abs n) in
  let padded := fmt.zeros (2 - String.length ds) +:+ ds in
  if n <? 0 then String "-" padded else padded.

(** The reading with every component padded to two digits. *)
Definition padded_clock (div md : Z -> Z -> Z) (v : Z) : string :=
  clock_of div md padded_to_2_digits v.

(** The value of a string of decimal digits, read left to right. *)
Fixpoint digits_value (acc : Z) (s : string) : option Z :=
  match s with
  | EmptyString => Some acc
  | String c rest =>
      let d := Z.of_nat (nat_of_ascii c) - 48 in
      if (0 <=? d) && (d <? 10) then digits_value (10 * acc + d) rest
      else None
  end.

(** Reading a decimal numeral: an optional minus sign, then at least
    one digit. *)
Definition parse_decimal (s : string) : option Z :=
  match s with
  | EmptyString => None
  | String c rest =>
      if Ascii.eqb c "-" then
        match rest with
        | EmptyString => None
        | _ => option_map Z.opp (digits_value 0 rest)
        end
      else digits_value 0 s
  end.

(** Lower-case hexadecimal, two digits per byte. *)
Definition hex_digit (d : Z) : ascii :=
  if d <? 10 then ascii_of_nat (48 + Z.to_nat d)
  else ascii_of_nat (87 + Z.to_nat d).

Definition byte_hex (b : byte) : string :=
  let n := Z.of_N (Byte.to_N b) in
  String (hex_digit (n / 16)) (String (hex_digit (n mod 16)) "").

Fixpoint hex_of_bytes (l : list byte) : string :=
  match l with
  | [] => ""
  | b :: rest => byte_hex b +:+ hex_of_bytes rest
  end.

(** The canonical text of a UUID: its 32 hexadecimal digits in groups
    of 8, 4, 4, 4 and 12 separated by hyphens. *)
Definition canonical_uuid (u : list byte) : string :=
  let h := hex_of_bytes u in
  substring 0 8 h +:+ "-" +:+ substring 8 4 h +:+ "-" +:+
  substring 12 4 h +:+ "-" +:+ substring 16 4 h +:+ "-" +:+
  substring 20 12 h.

Section BatchReference.

Context `{JSONLib}.
Variable WarnInt2StrInSetField : bool.

(** The writes of a batch one after the other, each on the object
    the previous one left. *)
Fixpoint trace (obj : Obj) (pairs : list (string * Iface)) : list SetResult :=
  match pairs with
  | [] => []
  | (name, value) :: rest =>
      let r := SetField WarnInt2StrInSetField obj name value in
      r :: trace (sr_obj r) rest
  end.

End BatchReference.

(** The error of a write that failed. *)
Definition failure `{TimeLib} (r : SetResult) : option error :=
  match sr_outcome r with
  | Returns err => err
  | Panics _ => None
  end.

Definition last_failure `{TimeLib} (rs : list SetResult) : option error :=
  last (omap failure rs).

(** The error kept after the writes [rs], starting from [err]. *)
Definition kept_error `{TimeLib} (err : option error) (rs : list SetResult)
  : option error :=
  match last_failure rs with
  | Some e => Some e
  | None => err
  end.

Definition returned `{TimeLib} (r : SetResult) : Prop :=
  match sr_outcome r with
  | Returns _ => True
  | Panics _ => False
  end.

(** The object after the last write of a trace. *)
Definition final_obj `{TimeLib} (obj : Obj) (rs : list SetResult) : Obj :=
  from_option sr_obj obj (last rs).

Definition all_stdout `{TimeLib} (rs : list SetResult) : list string :=
  concat (sr_stdout <$> rs).

(** The value held by field [i] of the struct behind a pointer. *)
Definition field_value `{TimeLib} (obj : Obj) (i : nat) : option Dyn :=
  match obj with
  | ObjPtr s => fvalue <$> s !! i
  | _ => None
  end.

(** ** The other accessors of a field *)

(** A call that returns a value and an error, or panics. *)
Inductive Call (E A : Type) : Type :=
| Returned (v : A) (err : option E)
| Panicked.
Arguments Returned {E A} v err.
Arguments Panicked {E A}.

Section Accessors.

Context `{TimeLib}.




End Accessors.

(** ** Reference definitions for the algebra of writes *)


Section WriteEffect.

Context `{JSONLib}.
Variable WarnInt2StrInSetField : bool.

(** What a write of [val] comes to once the field is found, from the
    name, the declared type and the export mark of the field alone:
    how the call ends, the value to store if there is one, and the
    lines printed. *)
Definition write_effect (name : string) (t : GoType) (exp : bool) (val : Dyn)
  : outcome * option Dyn * list string :=
  if negb exp then (Returns (Some (ErrCannotSet name)), None, [])
  else if decide (t = TypeOf val) then (Returns None, Some val, [])
  else
    match coerce WarnInt2StrInSetField name t val with
    | Coerced val' printed =>
        if decide (t = TypeOf val') then (Returns None, Some val', printed)
        else (Panics PanicSet, None, printed)
    | CoerceError e => (Returns (Some e), None, [])
    | AssertFails => (Panics PanicAssertion, None, [])
    | NoRule =>
        (Returns (Some (ErrInvalidType name t (TypeOf val))), None,
         [fmt.Println [name; Error (ErrInvalidType name t (TypeOf val))]])
    end.

End WriteEffect.

(** The struct with the value [w], when there is one, stored in field
    [i]. *)
Definition store `{TimeLib} (s : Struct) (i : nat) (fld : Field) (w : option Dyn)
  : Struct :=
  match w with
  | Some w => <[i := set_fvalue fld w]> s
  | None => s
  end.


(** ** Walks over the fields of a struct

    [fields], [items], [tags] and
    [GetStructAllFieldNamesAndJsonTag] go through the fields of a
    struct by index and, when asked to go deep, into the exported
    embedded fields.  They see a value as follows. *)

(** [reflect.StructField].  A tag is taken in the conventional
    format and kept as its [key:"value"] pairs, in the order of the
    tag. *)
Record StructField : Type := mkStructField {
  Name : string;
  PkgPath : string;
  Tag : list (string * string);
  Anonymous : bool
}.

(** [Tag.Get(key)]: the value of the first pair with the key, or the
    empty string. *)
Definition Tag_Get (tag : list (string * string)) (key : string) : string :=
  match list_find (fun kv => kv.1 = key) tag with
  | Some (_, (_, value)) => value
  | None => ""
  end.

Definition IsExportableField (field : StructField) : bool :=
  bool_decide (PkgPath field = "").

Local Unset Elimination Schemes.
Inductive Val `{TimeLib} : Type :=
| VStruct (fs : list (StructField * Val))   (* a struct, with its fields and their values *)
| VPtr (fs : list (StructField * Val))      (* a non-nil pointer to a struct *)
| VNilPtr                                   (* a nil pointer *)
| VPtrOther                                 (* a pointer to something that is not a struct *)
| VNil                                      (* the nil interface *)
| VScalar (d : Dyn).                        (* any other value *)
Local Set Elimination Schemes.

Module strings_Cut.

(** [strings.Cut(s, sep)]: [s] around the first occurrence of [sep],
    and whether there is one. *)
Fixpoint Cut (s sep : string) : string * string * bool :=
  if String.prefix sep s then
    ("", substring (String.length sep) (String.length s - String.length sep) s, true)
  else
    match s with
    | EmptyString => ("", "", false)
    | String c rest => let '(before, after, found) := Cut rest sep in
                       (String c before, after, found)
    end.

End strings_Cut.

Definition ErrNonStructText : string := Error ErrNonStruct.

Section Walks.

Context `{TimeLib}.

(** What a walk gives on a value that shows no fields to go through:
    [hasValidType(obj, {Struct, Ptr})] fails on a value that is
    neither a struct nor a pointer; on the nil interface the kind of
    the nil type is asked for, on a nil pointer the type of the zero
    [Value], and on a pointer to something else the number of fields
    of a type that is not a struct: the three panic.  Among the scalar
    values only [time.Time] is a struct, and none of its fields is
    exported, so the loop leaves the result empty. *)
Definition no_fields {A : Type} (obj : Val) (empty : A) : Call string A :=
  match obj with
  | VNilPtr | VPtrOther | VNil => Panicked
  | VScalar d =>
      match KindOf (TypeOf d) with
      | KStruct => Returned empty None
      | _ => Returned empty (Some ErrNonStructText)
      end
  | VStruct _ | VPtr _ => Returned empty None
  end.

Section Loops.

(** The loops, for a given result of the calls on embedded fields. *)
Variable deep : bool.

Section FieldsLoop.
Variable fields_rec : Val -> Call string (list string).

Fixpoint fields_loop (fs : list (StructField * Val)) (allFields : list string)
  : Call string (list string) :=
  match fs with
  | [] => Returned allFields None
  | (field, fieldValue) :: rest =>
      if IsExportableField field then
        if deep && Anonymous field then
          match fields_rec fieldValue with
          | Panicked => Panicked
          | Returned _ (Some err) =>
              Returned [] (Some ("cannot get fields in " +:+ Name field
                                   +:+ ": " +:+ err))
          | Returned subFields None => fields_loop rest (allFields ++ subFields)
          end
        else fields_loop rest (allFields ++ [Name field])
      else fields_loop rest allFields
  end.
End FieldsLoop.

Section ItemsLoop.
Variable items_rec : Val -> Call string (gmap string Val).

Fixpoint items_loop (fs : list (StructField * Val)) (allItems : gmap string Val)
  : Call string (gmap string Val) :=
  match fs with
  | [] => Returned allItems None
  | (field, fieldValue) :: rest =>
      if IsExportableField field then
        if deep && Anonymous field then
          match items_rec fieldValue with
          | Panicked => Panicked
          | Returned _ (Some err) =>
              Returned ∅ (Some ("cannot get items in " +:+ Name field
                                  +:+ ": " +:+ err))
          | Returned m None => items_loop rest (m ∪ allItems)
          end
        else items_loop rest (<[Name field := fieldValue]> allItems)
      else items_loop rest allItems
  end.
End ItemsLoop.

Section TagsLoop.
Variable key : string.
Variable tags_rec : Val -> Call string (gmap string string).

Fixpoint tags_loop (fs : list (StructField * Val)) (allTags : gmap string string)
  : Call string (gmap string string) :=
  match fs with
  | [] => Returned allTags None
  | (structField, fieldValue) :: rest =>
      if IsExportableField structField then
        if deep && Anonymous structField then
          match tags_rec fieldValue with
          | Panicked => Panicked
          | Returned _ (Some err) =>
              Returned ∅ (Some ("cannot get items in " +:+ Name structField
                                  +:+ ": " +:+ err))
          | Returned m None => tags_loop rest (m ∪ allTags)
          end
        else tags_loop rest
               (<[Name structField := Tag_Get (Tag structField) key]> allTags)
      else tags_loop rest allTags
  end.
End TagsLoop.

Section JsonLoop.
Variable fieldnamefirst : bool.
Variable json_rec : Val -> Call string (gmap string string).

Fixpoint json_loop (fs : list (StructField * Val))
         (allfieldAndJsons : gmap string string)
  : Call string (gmap string string) :=
  match fs with
  | [] => Returned allfieldAndJsons None
  | (field, fieldValue) :: rest =>
      if IsExportableField field then
        if deep && Anonymous field then
          match json_rec fieldValue with
          | Panicked => Panicked
          | Returned _ (Some err) =>
              Returned ∅ (Some ("cannot get fields in " +:+ Name field
                                  +:+ ": " +:+ err))
          | Returned subFields None => json_loop rest (subFields ∪ allfieldAndJsons)
          end
        else
          let jsontag := Tag_Get (Tag field) "json" in
          let before := (strings_Cut.Cut jsontag ",").1.1 in
          if fieldnamefirst
          then json_loop rest (<[Name field := before]> allfieldAndJsons)
          else json_loop rest (<[before := Name field]> allfieldAndJsons)
      else json_loop rest allfieldAndJsons
  end.
End JsonLoop.

End Loops.

Fixpoint fields (obj : Val) (deep : bool) {struct obj} : Call string (list string) :=
  match obj with
  | VStruct fs | VPtr fs => fields_loop deep (fun v => fields v deep) fs []
  | _ => no_fields obj []
  end.

Fixpoint items (obj : Val) (deep : bool) {struct obj} : Call string (gmap string Val) :=
  match obj with
  | VStruct fs | VPtr fs => items_loop deep (fun v => items v deep) fs ∅
  | _ => no_fields obj ∅
  end.

Fixpoint tags (obj : Val) (key : string) (deep : bool) {struct obj}
  : Call string (gmap string string) :=
  match obj with
  | VStruct fs | VPtr fs => tags_loop deep key (fun v => tags v key deep) fs ∅
  | _ => no_fields obj ∅
  end.

Fixpoint GetStructAllFieldNamesAndJsonTag (obj : Val) (deep fieldnamefirst : bool)
         {struct obj} : Call string (gmap string string) :=
  match obj with
  | VStruct fs | VPtr fs =>
      json_loop deep fieldnamefirst
        (fun v => GetStructAllFieldNamesAndJsonTag v deep fieldnamefirst) fs ∅
  | _ => no_fields obj ∅
  end.

Definition Fields (obj : Val) := fields obj false.
Definition FieldsDeep (obj : Val) := fields obj true.
Definition Items (obj : Val) := items obj false.
Definition ItemsDeep (obj : Val) := items obj true.
Definition Tags (obj : Val) (key : string) := tags obj key false.
Definition TagsDeep (obj : Val) (key : string) := tags obj key true.

(** The error of [fields] is dropped. *)
Definition GetStructAllDirectFieldNames (obj : Val) : Call string (list string) :=
  match fields obj false with
  | Returned fs _ => Returned fs None
  | Panicked => Panicked
  end.

Definition GetStructAllFieldNames (obj : Val) : Call string (list string) :=
  match fields obj true with
  | Returned fs _ => Returned fs None
  | Panicked => Panicked
  end.

End Walks.

(** ** Reference definitions for the walks *)

(** The part of a tag value in front of its first comma. *)
Definition before_comma (jsontag : string) : string :=
  (strings_Cut.Cut jsontag ",").1.1.

(** Walks that end alike: all with the nil error and a result over
    the same names, all with an error, or all with a panic. *)
Definition walks_agree `{TimeLib}
           (rf : Call string (list string)) (ri : Call string (gmap string Val))
           (rt rj : Call string (gmap string string)) : Prop :=
  match rf, ri, rt, rj with
  | Returned names None, Returned m None, Returned t None, Returned j None =>
      dom m = list_to_set names /\ dom t = list_to_set names
      /\ dom j = list_to_set (C := gset string) names
  | Returned _ (Some _), Returned _ (Some _), Returned _ (Some _),
    Returned _ (Some _) => True
  | Panicked, Panicked, Panicked, Panicked => True
  | _, _, _, _ => False
  end.

(** The second walk gives the result of the first with every value
    cut at its first comma, and ends as the first does. *)
Definition cut_of (rt rj : Call string (gmap string string)) : Prop :=
  match rt, rj with
  | Returned t None, Returned j None => j = before_comma <$> t
  | Returned _ (Some _), Returned _ (Some _) => True
  | Panicked, Panicked => True
  | _, _ => False
  end.



(** ** An instance to run the model on

    Times in UTC given by their calendar fields, with the part of
    package [time] that the layout [ISOTimeFormat] calls for: [Parse]
    follows [parse] of that package chunk by chunk (a year of four
    digits, a month and a day of two, an hour of one or two, a minute
    and a second of two, a fraction of a second when the text has one,
    nothing after it, and a day that the month has), and [Format]
    follows [appendFormat].  Of an error only the cause is kept.
    Another layout is not covered: [Parse] refuses it and [Format]
    copies it.  The serialiser knows the empty map only. *)

Module CivilTime.

Record civil : Type := mkCivil {
  year : Z; month : Z; day : Z; hour : Z; minute : Z; second : Z;
  nanosecond : Z
}.

(** [time.Time{}]: January 1 of year 1, at midnight. *)
Definition zero : civil := mkCivil 1 1 1 0 0 0 0.

(** [appendInt(b, x, width)]: the sign, then the digits padded with
    zeros to the width. *)
Definition appendInt (x : Z) (width : nat) : string :=
  let digits := strconv.FormatUint (Z.abs x) in
  let padded := fmt.zeros (width - String.length digits) +:+ digits in
  if x <? 0 then String "-" padded else padded.

Definition Format (t : civil) (layout : string) : string :=
  if (layout =? ISOTimeFormat)%string then
    appendInt (year t) 4 +:+ "-" +:+ appendInt (month t) 2 +:+ "-"
      +:+ appendInt (day t) 2 +:+ " " +:+ appendInt (hour t) 2 +:+ ":"
      +:+ appendInt (minute t) 2 +:+ ":" +:+ appendInt (second t) 2
  else layout.

Definition is_digit (c : ascii) : bool :=
  (48 <=? nat_of_ascii c)%nat && (nat_of_ascii c <=? 57)%nat.

(** [isDigit(s, i)]. *)
Definition isDigit (s : string) (i : nat) : bool :=
  match String.get i s with
  | Some c => is_digit c
  | None => false
  end.

(** [int(s[i] - '0')]. *)
Definition digit_at (s : string) (i : nat) : Z :=
  match String.get i s with
  | Some c => Z.of_nat (nat_of_ascii c) - 48
  | None => 0
  end.

(** The slice expression [s[n:]]. *)
Fixpoint from (n : nat) (s : string) : string :=
  match n, s with
  | S n', String _ rest => from n' rest
  | _, _ => s
  end.

(** [getnum(s, fixed)]: a number of two digits, or of one digit when
    [fixed] is not set, and the text after it. *)
Definition getnum (s : string) (fixed : bool) : option (Z * string) :=
  if negb (isDigit s 0) then None
  else if negb (isDigit s 1) then
    if fixed then None else Some (digit_at s 0, from 1 s)
  else Some (digit_at s 0 * 10 + digit_at s 1, from 2 s).

(** [cutspace(s)]: [s] without its leading spaces. *)
Fixpoint cutspace (s : string) : string :=
  match s with
  | String c rest => if Ascii.eqb c " " then cutspace rest else s
  | EmptyString => s
  end.

(** [skip(value, prefix)] for the one-character prefixes of the
    layout: a space of the layout stands for any run of spaces. *)
Definition skip (value : string) (prefix : ascii) : option string :=
  if Ascii.eqb prefix " " then
    match value with
    | String c _ => if Ascii.eqb c " " then Some (cutspace value) else None
    | EmptyString => Some value
    end
  else
    match value with
    | String c rest => if Ascii.eqb c prefix then Some rest else None
    | EmptyString => None
    end.

(** The chunk [2006]: four characters that [atoi] reads as a
    number. *)
Definition longYear (value : string) : option (Z * string) :=
  if (String.length value <? 4)%nat || negb (isDigit value 0) then None
  else
    match digits_value 0 (substring 0 4 value) with
    | Some y => Some (y, from 4 value)
    | None => None
    end.

Definition commaOrPeriod (c : ascii) : bool :=
  Ascii.eqb c "." || Ascii.eqb c ",".

Fixpoint leading_digits (s : string) : nat :=
  match s with
  | String c rest => if is_digit c then S (leading_digits rest) else O
  | EmptyString => O
  end.

(** [parseNanoseconds(value, nbytes)]: the digits after the mark, nine
    of them at most, as a count of nanoseconds. *)
Definition parseNanoseconds (value : string) (nbytes : nat) : option Z :=
  let nbytes := Nat.min nbytes 10 in
  match digits_value 0 (substring 1 (nbytes - 1) value) with
  | Some ns => Some (ns * 10 ^ Z.of_nat (10 - nbytes))
  | None => None
  end.

(** After the seconds: a fraction that the layout does not ask for is
    read when the text has one. *)
Definition fraction (value : string) : option (Z * string) :=
  match String.get 0 value with
  | Some c =>
      if (2 <=? String.length value)%nat && commaOrPeriod c && isDigit value 1
      then
        let n := (2 + leading_digits (from 2 value))%nat in
        match parseNanoseconds value n with
        | Some nsec => Some (nsec, from n value)
        | None => None
        end
      else Some (0, value)
  | None => Some (0, value)
  end.

Definition isLeap (year : Z) : bool :=
  (year mod 4 =? 0) && (negb (year mod 100 =? 0) || (year mod 400 =? 0)).

(** [daysIn(m, year)]. *)
Definition daysIn (m year : Z) : Z :=
  if m =? 2 then (if isLeap year then 29 else 28)
  else 30 + Z.land (m + Z.shiftr m 3) 1.

Definition errBad : string := "cannot parse".

(** A step of the reader that can fail with [errBad]. *)
Definition step {A : Type} (x : option A) (k : A -> civil + string)
  : civil + string :=
  match x with
  | Some a => k a
  | None => inr errBad
  end.

(** A value that has to stay below its bound. *)
Definition below (bound v : Z) (what : string) (k : civil + string)
  : civil + string :=
  if bound <=? v then inr (what +:+ " out of range") else k.

(** [parse] on the layout [2006-01-02 15:04:05]. *)
Definition parseISO (value : string) : civil + string :=
  step (longYear value) (fun '(year, value) =>
  step (skip value "-") (fun value =>
  step (getnum value true) (fun '(month, value) =>
  if (month <=? 0) || (12 <? month) then inr "month out of range" else
  step (skip value "-") (fun value =>
  step (getnum value true) (fun '(day, value) =>
  step (skip value " ") (fun value =>
  step (getnum value false) (fun '(hour, value) =>
  below 24 hour "hour" (
  step (skip value ":") (fun value =>
  step (getnum value true) (fun '(min, value) =>
  below 60 min "minute" (
  step (skip value ":") (fun value =>
  step (getnum value true) (fun '(sec, value) =>
  below 60 sec "second" (
  step (fraction value) (fun '(nsec, value) =>
  if negb (String.length value =? 0)%nat then inr "extra text"
  else if (day <? 1) || (daysIn month year <? day) then inr "day out of range"
  else inl (mkCivil year month day hour min sec nsec)))))))))))))))).

Definition Parse (layout value : string) : civil + string :=
  if (layout =? ISOTimeFormat)%string then parseISO value
  else inr "layout not covered".

End CivilTime.

Definition civilTime : TimeLib :=
  {| Time := CivilTime.civil;
     Time_zero := CivilTime.zero;
     time_Format := CivilTime.Format;
     time_Parse := CivilTime.Parse |}.

Definition emptyMapJSON : @JSONLib civilTime :=
  {| json_Marshal := fun m =>
       match m with
       | [] => inl "{}"
       | _ => inr "json: unsupported value"
       end |}.

Module Demo.

(** An identifier is exported when it starts with an upper-case
    letter ([token.IsExported]); the names below start with a letter
    of the ASCII alphabet. *)
Definition IsExported (name : string) : bool :=
  match name with
  | String c _ => (65 <=? nat_of_ascii c)%nat && (nat_of_ascii c <=? 90)%nat
  | EmptyString => false
  end.

(** A field as a struct declaration gives it: exported or not by its
    name. *)
Definition declared (name : string) (t : GoType) (v : @Dyn civilTime)
  : @Field civilTime :=
  mkField name t (IsExported name) v.

Definition StartTime : @Field civilTime := declared "StartTime" TString (DString "").
Definition Count : @Field civilTime := declared "Count" TString (DString "").
Definition N : @Field civilTime := declared "N" TInt32 (DInt32 (-5)).
Definition U : @Field civilTime := declared "U" TUint32 (DUint32 9).
Definition hidden : @Field civilTime := declared "hidden" TString (DString "h").
Definition Id : @Field civilTime := declared "Id" TString (DString "").

(** [struct { StartTime, Count string; N int32; U uint32; hidden, Id
    string }] with its values: two text fields, two integer fields, an
    unexported field and a text field for an identifier. *)
Definition rec : list (@Field civilTime) := [StartTime; Count; N; U; hidden; Id].

Definition startTime : @Field civilTime := declared "startTime" TString (DString "").

(** [struct { startTime string }]: a text field whose name starts
    with a lower-case letter. *)
Definition shift : list (@Field civilTime) := [startTime].

(** A [time.Duration], a defined type over [int64]. *)
Definition Duration (d : Z) : @Dyn civilTime := DNamed "time.Duration" (DInt64 d).

Definition uuid16 : list byte :=
  [x00; x11; x22; x33; x44; x55; x66; x77; x88; x99; xaa; xbb; xcc; xdd; xee; xff].

(** [struct { Total int64; Active bool; Level Level }] with
    [type Level int32]. *)
Definition Total : @Field civilTime := declared "Total" TInt64 (DInt64 0).
Definition Active : @Field civilTime := declared "Active" TBool (DBool false).
Definition Level : @Field civilTime :=
  declared "Level" (TNamed "main.Level" TInt32) (DNamed "main.Level" (DInt32 1)).
Definition account : list (@Field civilTime) := [Total; Active; Level].

(** [type Base struct { ID int32 `json:"id"`; secret string }]. *)
Definition base : list (StructField * @Val civilTime) :=
  [(mkStructField "ID" "" [("json", "id")] false, VScalar (DInt32 1));
   (mkStructField "secret" "main" [] false, VScalar (DString "s"))].

Definition Base_embedded : StructField := mkStructField "Base" "" [] true.

(** The fields of [User] in front of [note], and [note], in
    [type User struct { Base; Name string `json:"name,omitempty"`;
    Age int32; Nick string; note string }]. *)
Definition user_front : list (StructField * @Val civilTime) :=
  [(Base_embedded, VStruct base);
   (mkStructField "Name" "" [("json", "name,omitempty")] false,
    VScalar (DString "Ann"));
   (mkStructField "Age" "" [] false, VScalar (DInt32 30));
   (mkStructField "Nick" "" [] false, VScalar (DString "a"))].

Definition note : StructField * @Val civilTime :=
  (mkStructField "note" "main" [] false, VScalar (DString "n")).

Definition user : list (StructField * @Val civilTime) := user_front ++ [note].

(** The field in front of the embedded field, and the one after it,
    in [type Outer struct { A int32; *Base; B string }] and in
    [type Ranked struct { A int32; Level; B string }]. *)
Definition outer_front : list (StructField * @Val civilTime) :=
  [(mkStructField "A" "" [] false, VScalar (DInt32 0))].

Definition outer_back : list (StructField * @Val civilTime) :=
  [(mkStructField "B" "" [] false, VScalar (DString ""))].

Definition Level_embedded : StructField := mkStructField "Level" "" [] true.

End Demo.

(** * Properties of the library models *)

(** ** Fixed-width conversions *)

Module GoIntFacts.
Import GoInt.

Lemma to_unsigned_mod w z : 0 <= w -> to_unsigned w z = z mod 2 ^ w.
Proof. intros Hw. unfold to_unsigned. now rewrite Z.land_ones. Qed.

Lemma to_unsigned_range w z : 0 <= w -> 0 <= to_unsigned w z < 2 ^ w.
Proof.
  intros Hw. rewrite to_unsigned_mod by assumption.
  apply Z.mod_pos_bound. now apply Z.pow_pos_nonneg.
Qed.

Lemma to_unsigned_congr w z :
  0 <= w -> to_unsigned w z mod 2 ^ w = z mod 2 ^ w.
Proof.
  intros Hw. rewrite to_unsigned_mod by assumption.
  apply Z.mod_mod. apply Z.pow_nonzero; lia.
Qed.

(** The sign bit of a value below [2^w] is set exactly when the value
    reaches [2^(w-1)]. *)
Lemma testbit_top w u :
  0 < w -> 0 <= u < 2 ^ w ->
  Z.testbit u (w - 1) = (2 ^ (w - 1) <=? u).
Proof.
  intros Hw [Hlo Hhi].
  assert (Hpow : 2 ^ w = 2 * 2 ^ (w - 1)).
  { replace w with (Z.succ (w - 1)) at 1 by lia.
    rewrite Z.pow_succ_r by lia. reflexivity. }
  rewrite Z.testbit_eqb by lia.
  destruct (Z.leb_spec (2 ^ (w - 1)) u) as [Hge | Hlt].
  - replace (u / 2 ^ (w - 1)) with 1; [reflexivity |].
    apply Z.div_unique with (r := u - 2 ^ (w - 1)); lia.
  - rewrite Z.div_small by lia. reflexivity.
Qed.

Lemma to_signed_range w z :
  0 < w -> - 2 ^ (w - 1) <= to_signed w z < 2 ^ (w - 1).
Proof.
  intros Hw. unfold to_signed.
  pose proof (to_unsigned_range w z ltac:(lia)) as Hu.
  assert (Hpow : 2 ^ w = 2 * 2 ^ (w - 1)).
  { replace w with (Z.succ (w - 1)) at 1 by lia.
    rewrite Z.pow_succ_r by lia. reflexivity. }
  cbv zeta. rewrite (testbit_top w) by assumption.
  destruct (Z.leb_spec (2 ^ (w - 1)) (to_unsigned w z)); lia.
Qed.

Lemma to_signed_congr w z :
  0 < w -> to_signed w z mod 2 ^ w = z mod 2 ^ w.
Proof.
  intros Hw. unfold to_signed. cbv zeta.
  destruct (Z.testbit (to_unsigned w z) (w - 1)).
  - replace (to_unsigned w z - 2 ^ w)
      with (to_unsigned w z + (-1) * 2 ^ w) by lia.
    rewrite Z.mod_add by (apply Z.pow_nonzero; lia).
    apply to_unsigned_congr; lia.
  - apply to_unsigned_congr; lia.
Qed.

(** A value already in range is left alone. *)
Lemma to_signed_id w z :
  0 < w -> - 2 ^ (w - 1) <= z < 2 ^ (w - 1) -> to_signed w z = z.
Proof.
  intros Hw Hz.
  pose proof (to_signed_range w z Hw) as Hr.
  pose proof (to_signed_congr w z Hw) as Hc.
  assert (Hpow : 2 ^ w = 2 * 2 ^ (w - 1)).
  { replace w with (Z.succ (w - 1)) at 1 by lia.
    rewrite Z.pow_succ_r by lia. reflexivity. }
  assert (Hpos : 0 < 2 ^ (w - 1)) by (apply Z.pow_pos_nonneg; lia).
  set (m := 2 ^ w) in *. set (r := to_signed w z) in *.
  assert (Hm : (r - z) mod m = 0).
  { rewrite Zminus_mod, Hc, Z.sub_diag. apply Z.mod_0_l. lia. }
  apply Z.mod_divide in Hm; [| lia].
  destruct Hm as [k Hk].
  assert (k = 0) by nia. lia.
Qed.

Lemma to_int64_id z : int64_range z -> to_int64 z = z.
Proof. intros H. apply to_signed_id; [lia | exact H]. Qed.

End GoIntFacts.


(** ** Text *)

Section StringFacts.

Lemma append_nil_l (b : string) : "" +:+ b = b.
Proof. reflexivity. Qed.

Lemma append_cons (x : ascii) (a b : string) :
  String x a +:+ b = String x (a +:+ b).
Proof. reflexivity. Qed.

Lemma append_assoc (a b c : string) : (a +:+ b) +:+ c = a +:+ (b +:+ c).
Proof.
  induction a as [| x a IH]; [reflexivity |].
  rewrite !append_cons. now f_equal.
Qed.

Lemma length_append (a b : string) :
  String.length (a +:+ b) = (String.length a + String.length b)%nat.
Proof.
  induction a as [| x a IH]; [reflexivity |].
  rewrite append_cons. cbn. now f_equal.
Qed.

End StringFacts.


Module stringsFacts.

Lemma prefix_app (p : string) : forall s,
  String.prefix p s = true <-> exists rest, s = p +:+ rest.
Proof.
  induction p as [| c p IH]; intros s.
  - split; [intros _; exists s; reflexivity | intros _; destruct s; reflexivity].
  - destruct s as [| d s]; cbn [String.prefix].
    + split; [discriminate | intros [rest Hrest]; discriminate].
    + destruct (ascii_dec c d) as [-> | Hne].
      * rewrite IH. split; intros [rest Hrest]; exists rest.
        -- rewrite append_cons. now f_equal.
        -- rewrite append_cons in Hrest. now inversion Hrest.
      * split; [discriminate |].
        intros [rest Hrest]. rewrite append_cons in Hrest.
        inversion Hrest. congruence.
Qed.

(** [Contains] holds exactly when the text can be cut around an
    occurrence of the substring. *)
Lemma Contains_spec (s substr : string) :
  strings.Contains s substr = true
  <-> exists before after, s = before +:+ substr +:+ after.
Proof.
  induction s as [| c s IH]; cbn [strings.Contains].
  - rewrite orb_false_r, prefix_app. split.
    + intros [rest Hrest]. exists "", rest. exact Hrest.
    + intros (before & after & Hcut).
      destruct before as [| b before]; [| discriminate].
      exists after. exact Hcut.
  - rewrite orb_true_iff, prefix_app, IH. split.
    + intros [[rest Hrest] | (before & after & Hcut)].
      * exists "", rest. exact Hrest.
      * exists (String c before), after. rewrite append_cons. now f_equal.
    + intros (before & after & Hcut).
      destruct before as [| b before].
      * left. exists after. exact Hcut.
      * right. exists before, after.
        rewrite append_cons in Hcut. now inversion Hcut.
Qed.

End stringsFacts.


(** ** Decimal rendering *)

Module strconvFacts.
Import strconv.

Lemma formatBits_app fuel : forall u acc,
  formatBits fuel u acc = formatBits fuel u "" +:+ acc.
Proof.
  induction fuel as [| fuel IH]; intros u acc; cbn [formatBits]; [reflexivity |].
  destruct (u <? 10); [reflexivity |].
  rewrite (IH _ (String _ acc)), (IH _ (String _ "")).
  rewrite append_assoc, append_cons, append_nil_l. reflexivity.
Qed.

Lemma formatBits_length fuel : forall u acc,
  (String.length acc <= String.length (formatBits fuel u acc))%nat.
Proof.
  induction fuel as [| fuel IH]; intros u acc; cbn [formatBits]; [lia |].
  destruct (u <? 10); cbn [String.length]; [lia |].
  etransitivity; [| apply IH]. cbn [String.length]. lia.
Qed.

Lemma formatBits_small fuel u acc :
  0 <= u < 10 -> formatBits (S fuel) u acc = String (digit u) acc.
Proof.
  intros Hu. cbn [formatBits].
  destruct (Z.ltb_spec u 10); [| lia].
  now rewrite Z.mod_small by lia.
Qed.

Lemma formatBits_length_one fuel u acc :
  (S (String.length acc) <= String.length (formatBits (S fuel) u acc))%nat.
Proof.
  cbn [formatBits]. destruct (u <? 10); cbn [String.length]; [lia |].
  etransitivity; [| apply formatBits_length]. cbn [String.length]. lia.
Qed.

Lemma formatBits_length_two fuel u acc :
  10 <= u ->
  (S (S (String.length acc))
   <= String.length (formatBits (S (S fuel)) u acc))%nat.
Proof.
  intros Hu. cbn [formatBits].
  destruct (Z.ltb_spec u 10); [lia |].
  destruct (u / 10 <? 10); cbn [String.length]; [lia |].
  etransitivity; [| apply formatBits_length]. cbn [String.length]. lia.
Qed.

Lemma FormatUint_small u :
  0 <= u < 10 -> FormatUint u = String (digit u) "".
Proof. apply formatBits_small. Qed.

Lemma FormatUint_length_pos u : (1 <= String.length (FormatUint u))%nat.
Proof. apply (formatBits_length_one 19 u ""). Qed.

Lemma FormatUint_length_two u :
  10 <= u -> (2 <= String.length (FormatUint u))%nat.
Proof. apply (formatBits_length_two 18 u ""). Qed.

Lemma digit_is_digit d :
  0 <= d < 10 -> Z.of_nat (nat_of_ascii (digit d)) - 48 = d.
Proof.
  intros Hd. unfold digit.
  rewrite nat_ascii_embedding by lia. lia.
Qed.

Lemma digit_not_minus d : 0 <= d < 10 -> Ascii.eqb (digit d) "-" = false.
Proof.
  intros Hd. apply Ascii.eqb_neq. intros Heq.
  pose proof (digit_is_digit d Hd) as Hv. rewrite Heq in Hv.
  change (Z.of_nat (nat_of_ascii "-")) with 45 in Hv. lia.
Qed.

Lemma digits_value_digit a d rest :
  0 <= d < 10 ->
  digits_value a (String (digit d) rest) = digits_value (10 * a + d) rest.
Proof.
  intros Hd. cbn [digits_value]. rewrite (digit_is_digit d Hd).
  destruct (Z.leb_spec 0 d); [| lia]. destruct (Z.ltb_spec d 10); [| lia].
  reflexivity.
Qed.

Lemma digits_value_app s1 : forall a s2,
  digits_value a (s1 +:+ s2)
  = match digits_value a s1 with
    | Some b => digits_value b s2
    | None => None
    end.
Proof.
  induction s1 as [| c s1 IH]; intros a s2; [reflexivity |].
  rewrite append_cons. cbn [digits_value].
  destruct (_ && _); [apply IH | reflexivity].
Qed.

(** With enough fuel the digits written are those of the number. *)
Lemma formatBits_value fuel : forall u,
  0 <= u < 10 ^ Z.of_nat fuel ->
  digits_value 0 (formatBits fuel u "") = Some u.
Proof.
  induction fuel as [| fuel IH]; intros u Hu.
  - cbn in Hu. assert (u = 0) by lia. subst. reflexivity.
  - cbn [formatBits].
    assert (Hmod : 0 <= u mod 10 < 10) by (apply Z.mod_pos_bound; lia).
    destruct (Z.ltb_spec u 10) as [Hsmall | Hbig].
    + rewrite digits_value_digit by assumption. cbn.
      rewrite Z.mod_small by lia. reflexivity.
    + rewrite formatBits_app, digits_value_app.
      rewrite IH.
      * rewrite digits_value_digit by assumption. cbn.
        f_equal. pose proof (Z.div_mod u 10 ltac:(lia)). lia.
      * rewrite Nat2Z.inj_succ, Z.pow_succ_r in Hu by lia.
        split; [apply Z.div_pos; lia |].
        apply Z.div_lt_upper_bound; lia.
Qed.

(** The text starts with a digit. *)
Lemma FormatUint_head u :
  0 <= u -> exists d rest, 0 <= d < 10 /\ FormatUint u = String (digit d) rest.
Proof.
  intros Hu. unfold FormatUint.
  assert (Hgen : forall fuel v acc,
             exists d rest, 0 <= d < 10 /\
               formatBits (S fuel) v acc = String (digit d) rest).
  { induction fuel as [| fuel IH]; intros v acc; cbn [formatBits].
    - exists (v mod 10). eexists. split; [apply Z.mod_pos_bound; lia |].
      destruct (v <? 10); reflexivity.
    - destruct (v <? 10).
      + exists (v mod 10). eexists. split; [apply Z.mod_pos_bound; lia |].
        reflexivity.
      + apply IH. }
  apply Hgen.
Qed.

(** [FormatInt] writes a decimal numeral of its argument. *)
Lemma parse_decimal_FormatInt v :
  - 10 ^ 20 < v < 10 ^ 20 -> parse_decimal (FormatInt v) = Some v.
Proof.
  intros Hv. unfold FormatInt.
  destruct (Z.ltb_spec v 0) as [Hneg | Hpos].
  - destruct (FormatUint_head (- v) ltac:(lia)) as (d & rest & Hd & Heq).
    unfold parse_decimal. cbn [Ascii.eqb Bool.eqb]. rewrite Heq, <- Heq.
    unfold FormatUint.
    rewrite formatBits_value by (change (Z.of_nat 20) with 20; lia).
    cbn. f_equal. lia.
  - destruct (FormatUint_head v ltac:(lia)) as (d & rest & Hd & Heq).
    unfold parse_decimal. rewrite Heq, digit_not_minus by assumption.
    rewrite <- Heq. unfold FormatUint.
    apply formatBits_value. change (Z.of_nat 20) with 20. lia.
Qed.

End strconvFacts.


Module fmtFacts.
Import strconv fmt strconvFacts.

(** [%02d] adds a zero in front of a single digit and nothing
    else. *)
Lemma fmt_02d_two_digits n : fmt_02d n = two_digits n.
Proof.
  unfold fmt_02d, two_digits, FormatInt.
  destruct (Z.ltb_spec n 0) as [Hneg | Hpos].
  - destruct (Z.leb_spec 0 n); [lia |]. cbn [andb].
    rewrite Z.abs_neq by lia.
    pose proof (FormatUint_length_pos (- n)) as Hlen.
    replace (1 - String.length (FormatUint (- n)))%nat with 0%nat by lia.
    reflexivity.
  - destruct (Z.leb_spec 0 n); [| lia]. cbn [andb].
    rewrite Z.abs_eq by lia.
    destruct (Z.ltb_spec n 10) as [Hsmall | Hbig].
    + rewrite FormatUint_small by lia. reflexivity.
    + pose proof (FormatUint_length_two n Hbig) as Hlen.
      replace (2 - String.length (FormatUint n))%nat with 0%nat by lia.
      reflexivity.
Qed.

End fmtFacts.


(** ** Clock rendering *)

Section ClockFacts.

Lemma rem_rem_minute v :
  Z.rem (Z.rem v 3600000000) 60000000 = Z.rem v 60000000.
Proof. Z.to_euclidean_division_equations. lia. Qed.

(** On a 64-bit value none of the intermediate results of the clock
    computation wraps around. *)
Lemma int64_to_string_spec name v :
  GoInt.int64_range v ->
  int64_to_string name v
  = if time_named name then clock_text v else strconv.FormatInt v.
Proof.
  intros Hv. unfold int64_to_string, time_named.
  destruct (strings.Contains name "Time" || strings.Contains name "time");
    [| reflexivity].
  unfold GoInt.quo64, GoInt.mul64, GoInt.sub64, fmt.Sprintf_clock.
  unfold clock_text, clock_of.
  unfold microsecondsPerHour, microsecondsPerMinute, microsecondsPerSecond.
  change (60 * (60 * 1000000)) with 3600000000.
  change (60 * 1000000) with 60000000.
  unfold GoInt.int64_range in Hv.
  assert (Hid : forall z, - 2 ^ 63 <= z < 2 ^ 63 -> GoInt.to_int64 z = z)
    by (intros z Hz; now apply GoIntFacts.to_int64_id).
  rewrite (Hid (Z.quot v 3600000000))
    by (Z.to_euclidean_division_equations; lia).
  rewrite (Hid (Z.quot v 3600000000 * 3600000000))
    by (Z.to_euclidean_division_equations; lia).
  replace (v - Z.quot v 3600000000 * 3600000000) with (Z.rem v 3600000000)
    by (Z.to_euclidean_division_equations; lia).
  rewrite (Hid (Z.rem v 3600000000))
    by (Z.to_euclidean_division_equations; lia).
  set (u := Z.rem v 3600000000).
  assert (Hu : - 3600000000 < u < 3600000000)
    by (subst u; Z.to_euclidean_division_equations; lia).
  rewrite (Hid (Z.quot u 60000000))
    by (Z.to_euclidean_division_equations; lia).
  rewrite (Hid (Z.quot u 60000000 * 60000000))
    by (Z.to_euclidean_division_equations; lia).
  replace (u - Z.quot u 60000000 * 60000000) with (Z.rem u 60000000)
    by (Z.to_euclidean_division_equations; lia).
  rewrite (Hid (Z.rem u 60000000))
    by (Z.to_euclidean_division_equations; lia).
  subst u. rewrite rem_rem_minute.
  rewrite (Hid (Z.quot (Z.rem v 60000000) 1000000))
    by (Z.to_euclidean_division_equations; lia).
  rewrite !fmtFacts.fmt_02d_two_digits. reflexivity.
Qed.

End ClockFacts.


Section ClockReference.

Lemma two_digits_padded n : 0 <= n -> two_digits n = padded_to_2_digits n.
Proof.
  intros Hn. rewrite <- fmtFacts.fmt_02d_two_digits.
  unfold fmt.fmt_02d, padded_to_2_digits.
  destruct (Z.ltb_spec n 0); [lia | reflexivity].
Qed.

(** For a count that is not negative the truncating reading is the
    one with floor division and every component on two digits. *)
Lemma clock_text_nonneg v :
  0 <= v -> clock_text v = padded_clock Z.div Z.modulo v.
Proof.
  intros Hv. unfold clock_text, padded_clock, clock_of.
  rewrite !Z.rem_mod_nonneg by lia.
  rewrite !Z.quot_div_nonneg
    by (try lia; apply Z.mod_pos_bound; lia).
  rewrite !two_digits_padded
    by (apply Z.div_pos; try lia; apply Z.mod_pos_bound; lia).
  reflexivity.
Qed.

End ClockReference.


(** ** Hexadecimal and UUID text *)

Section UuidFacts.

Lemma hexchar_high (b : byte) :
  hex.hexchar (N.shiftr (Byte.to_N b) 4) = hex_digit (Z.of_N (Byte.to_N b) / 16).
Proof. destruct b; reflexivity. Qed.

Lemma hexchar_low (b : byte) :
  hex.hexchar (N.land (Byte.to_N b) 15) = hex_digit (Z.of_N (Byte.to_N b) mod 16).
Proof. destruct b; reflexivity. Qed.

Lemma Encode_hex_of_bytes (l : list byte) : hex.Encode l = hex_of_bytes l.
Proof.
  induction l as [| b l IH]; [reflexivity |].
  cbn [hex.Encode hex_of_bytes]. unfold byte_hex.
  rewrite hexchar_high, hexchar_low, IH. reflexivity.
Qed.

(** On 16 bytes [UUID.String] is the canonical text. *)
Lemma uuid_String_canonical (u : list byte) :
  length u = 16%nat ->
  uuid.String_ u = canonical_uuid u /\ String.length (canonical_uuid u) = 36%nat.
Proof.
  intros Hlen.
  do 16 (destruct u as [| ? u]; [discriminate |]).
  destruct u; [| discriminate].
  unfold uuid.String_. rewrite !Encode_hex_of_bytes.
  split; reflexivity.
Qed.

End UuidFacts.


(** ** Field lookup *)

Section FieldLookup.

Context `{TimeLib}.

Lemma FieldByName_Some (s : Struct) name i fld :
  FieldByName s name = Some (i, fld) ->
  s !! i = Some fld /\ fname fld = name /\ name <> "".
Proof.
  unfold FieldByName. destruct (decide (name = "")) as [-> | Hne]; [discriminate |].
  intros Hfind. apply list_find_Some in Hfind as (Hl & Hn & _). auto.
Qed.

(** Writing a value into the field that a name finds does not move
    the field. *)
Lemma FieldByName_set_fvalue (s : Struct) name i fld v :
  FieldByName s name = Some (i, fld) ->
  FieldByName (<[i := set_fvalue fld v]> s) name = Some (i, set_fvalue fld v).
Proof.
  unfold FieldByName. destruct (decide (name = "")) as [-> | Hne]; [discriminate |].
  intros Hfind. apply list_find_Some in Hfind as (Hl & Hn & Hfirst).
  apply list_find_Some. split; [| split].
  - apply list_lookup_insert_eq. eapply lookup_lt_Some; eassumption.
  - exact Hn.
  - intros j y Hj Hlt.
    rewrite list_lookup_insert_ne in Hj by lia. eauto.
Qed.

End FieldLookup.


(** ** The batch loop *)

Section BatchFacts.

Context `{JSONLib}.
Variable warn : bool.





Lemma kept_error_cons err r rs :
  returned r ->
  kept_error err (r :: rs)
  = kept_error (match failure r with Some e => Some e | None => err end) rs.
Proof.
  intros _. unfold kept_error, last_failure. cbn.
  destruct (failure r) as [e |]; [| reflexivity].
  rewrite last_cons. destruct (last (omap failure rs)); reflexivity.
Qed.

Lemma final_obj_cons obj r rs :
  final_obj obj (r :: rs) = final_obj (sr_obj r) rs.
Proof.
  unfold final_obj. rewrite last_cons. destruct (last rs); reflexivity.
Qed.

(** When no write panics, the loop attempts every pair and keeps the
    last error. *)
Lemma SetFields_loop_trace names vals : forall obj i err printed,
  (i + length names <= length vals)%nat ->
  Forall returned (trace warn obj (zip names (drop i vals))) ->
  let rs := trace warn obj (zip names (drop i vals)) in
  length rs = length names /\
  SetFields_loop warn obj i names vals err printed
  = mkSetResult (Returns (kept_error err rs)) (final_obj obj rs)
                (printed ++ all_stdout rs).
Proof.
  induction names as [| name rest IH]; intros obj i err printed Hlen Hret; cbn.
  - split; [reflexivity |]. unfold all_stdout. cbn. now rewrite app_nil_r.
  - cbn in Hlen.
    destruct (lookup_lt_is_Some_2 vals i ltac:(lia)) as [v Hv].
    rewrite Hv.
    rewrite (drop_S _ _ _ Hv) in Hret |- *. cbn in Hret |- *.
    inversion Hret as [| r rs' Hr Hrest]; subst.
    specialize (IH (sr_obj (SetField warn obj name v)) (S i)).
    unfold returned in Hr.
    destruct (sr_outcome (SetField warn obj name v)) as [errTmp |] eqn:Hout;
      [| contradiction].
    destruct (IH (match errTmp with Some _ => errTmp | None => err end)
                 (printed ++ sr_stdout (SetField warn obj name v))
                 ltac:(lia) Hrest) as [IHlen IHeq].
    split; [now rewrite IHlen |].
    rewrite IHeq. rewrite final_obj_cons.
    rewrite kept_error_cons by (unfold returned; now rewrite Hout).
    unfold failure. rewrite Hout.
    unfold all_stdout. cbn. rewrite <- app_assoc.
    destruct errTmp; reflexivity.
Qed.

(** The first write that panics ends the loop: the panic is the
    result, the object is the one the writes before it left, and the
    output stops with that write. *)
Lemma SetFields_loop_panic names vals : forall obj i err printed k r p,
  (i + length names <= length vals)%nat ->
  trace warn obj (zip names (drop i vals)) !! k = Some r ->
  sr_outcome r = Panics p ->
  Forall returned (take k (trace warn obj (zip names (drop i vals)))) ->
  SetFields_loop warn obj i names vals err printed
  = mkSetResult (Panics p) (sr_obj r)
      (printed
       ++ all_stdout (take (S k) (trace warn obj (zip names (drop i vals))))).
Proof.
  induction names as [| name rest IH];
    intros obj i err printed k r p Hlen Hk Hp Hbefore.
  - cbn in Hk. discriminate.
  - cbn in Hlen.
    destruct (lookup_lt_is_Some_2 vals i ltac:(lia)) as [v Hv].
    cbn [SetFields_loop]. rewrite Hv.
    rewrite (drop_S _ _ _ Hv) in Hk, Hbefore |- *.
    cbn [zip zip_with trace] in Hk, Hbefore |- *.
    destruct k as [| k].
    + cbn in Hk. injection Hk as <-. rewrite Hp.
      unfold all_stdout. cbn. now rewrite app_nil_r.
    + cbn in Hk, Hbefore.
      inversion Hbefore as [| r0 rs' Hr Hrest]; subst.
      unfold returned in Hr.
      destruct (sr_outcome (SetField warn obj name v)) as [errTmp |] eqn:Hout;
        [| contradiction].
      rewrite (IH (sr_obj (SetField warn obj name v)) (S i) _ _ k r p
                  ltac:(lia) Hk Hp Hrest).
      unfold all_stdout. cbn. now rewrite <- app_assoc.
Qed.

End BatchFacts.


(** ** The conversion switch *)

Section CoercionFacts.

Context `{JSONLib}.

(** What [GetField] reads under a name once a value has been stored
    in the field the name finds. *)
Lemma GetField_stored (s : Struct) name i fld (w : Dyn) :
  FieldByName s name = Some (i, fld) ->
  exported fld = true ->
  GetField (ObjPtr (<[i := set_fvalue fld w]> s)) name = GetReturns (Some w) None.
Proof.
  intros Hfind Hexp. unfold GetField.
  rewrite (FieldByName_set_fvalue s name i fld w Hfind).
  cbn. rewrite Hexp. reflexivity.
Qed.

(** A write that goes through the switch and comes out with a value
    of the field's type. *)
Lemma SetField_coerced warn (s : Struct) name i fld (v w : Dyn) printed :
  FieldByName s name = Some (i, fld) ->
  exported fld = true ->
  ftype fld <> TypeOf v ->
  coerce warn name (ftype fld) v = Coerced w printed ->
  ftype fld = TypeOf w ->
  SetField warn (ObjPtr s) name (Some v)
  = mkSetResult (Returns None) (ObjPtr (<[i := set_fvalue fld w]> s)) printed.
Proof.
  intros Hfind Hexp Hne Hco Hty.
  unfold SetField. rewrite Hfind, Hexp. cbn [negb].
  destruct (decide (ftype fld = TypeOf v)); [contradiction |].
  rewrite Hco. unfold Set_.
  destruct (decide (ftype fld = TypeOf w)); [reflexivity | contradiction].
Qed.

(** The same write as a caller sees it: the nil error, the lines
    printed, and the converted value under the name. *)
Lemma SetField_coerced_read warn (s : Struct) name i fld (v w : Dyn) printed :
  FieldByName s name = Some (i, fld) ->
  exported fld = true ->
  ftype fld <> TypeOf v ->
  coerce warn name (ftype fld) v = Coerced w printed ->
  ftype fld = TypeOf w ->
  sr_outcome (SetField warn (ObjPtr s) name (Some v)) = Returns None /\
  sr_stdout (SetField warn (ObjPtr s) name (Some v)) = printed /\
  GetField (sr_obj (SetField warn (ObjPtr s) name (Some v))) name
  = GetReturns (Some w) None.
Proof.
  intros Hfind Hexp Hne Hco Hty.
  rewrite (SetField_coerced warn s name i fld v w printed) by assumption.
  cbn [sr_outcome sr_stdout sr_obj].
  split; [reflexivity |]. split; [reflexivity |].
  now apply GetField_stored.
Qed.

(** What a successful write has written. *)
Lemma SetField_success_inv warn (s : Struct) name i fld (v : Dyn) :
  FieldByName s name = Some (i, fld) ->
  sr_outcome (SetField warn (ObjPtr s) name (Some v)) = Returns None ->
  exists w,
    sr_obj (SetField warn (ObjPtr s) name (Some v))
    = ObjPtr (<[i := set_fvalue fld w]> s) /\
    exported fld = true /\
    ftype fld = TypeOf w /\
    (ftype fld = TypeOf v /\ w = v \/
     ftype fld <> TypeOf v /\
     exists printed, coerce warn name (ftype fld) v = Coerced w printed).
Proof.
  intros Hfind. unfold SetField. rewrite Hfind.
  destruct (exported fld); cbn [negb]; [| discriminate].
  unfold Set_.
  destruct (decide (ftype fld = TypeOf v)) as [Heq | Hne].
  - intros _. exists v. cbn. repeat split; auto.
  - destruct (coerce warn name (ftype fld) v) as [w printed | e | |] eqn:Hco;
      try discriminate.
    destruct (decide (ftype fld = TypeOf w)) as [Heq | Hne']; [| discriminate].
    intros _. exists w. cbn. split; [reflexivity |]. split; [reflexivity |].
    split; [exact Heq |]. right. eauto.
Qed.

Lemma int64_to_string_name n1 n2 z :
  time_named n1 = time_named n2 ->
  int64_to_string n1 z = int64_to_string n2 z.
Proof. unfold time_named, int64_to_string. now intros ->. Qed.

(** The field name enters the converted value only through the
    clock rendering of an [int64]; the warning flag never does. *)
Lemma coerce_value_determined warn1 warn2 n1 n2 t (v w1 w2 : Dyn) p1 p2 :
  coerce warn1 n1 t v = Coerced w1 p1 ->
  coerce warn2 n2 t v = Coerced w2 p2 ->
  (TypeOf v = TInt64 -> TypeOf w1 = TString -> time_named n1 = time_named n2) ->
  w1 = w2.
Proof.
  unfold coerce.
  destruct (KindOf t); destruct v;
    cbn [TypeOf TypeString KindOf String.eqb Ascii.eqb Bool.eqb];
    repeat match goal with
           | |- context [if ?c then _ else _] => destruct c
           | |- context [match json_Marshal ?m with _ => _ end] =>
               destruct (json_Marshal m)
           | |- context [match KindOf ?x with _ => _ end] => destruct (KindOf x)
           end;
    intros H1 H2 Hname; try discriminate;
    inversion H1; inversion H2; subst; try reflexivity.
  f_equal. apply int64_to_string_name. now apply Hname.
Qed.

End CoercionFacts.


(** * Writes and reads of a single field *)

Section FieldClaims.

Context `{JSONLib}.
Variable warn : bool.

(** C6: a write of the nil interface returns the nil error and
    leaves the object as it was, whatever the object and the name
    are: every later read gives what it gave before.  Nothing is
    printed. *)
Theorem SetField_nil_value_is_noop (obj : Obj) (name : string) :
  SetField warn obj name None = mkSetResult (Returns None) obj [] /\
  forall other, GetField (sr_obj (SetField warn obj name None)) other
                = GetField obj other.
Proof. split; reflexivity. Qed.

(** C7: writing a value whose type is the declared type of an
    exported field of a struct passed by pointer succeeds, and
    reading the field back returns that very value. *)
Theorem SetField_GetField_roundtrip (s : Struct) name i fld (v : Dyn) :
  FieldByName s name = Some (i, fld) ->
  exported fld = true ->
  TypeOf v = ftype fld ->
  exists s',
    SetField warn (ObjPtr s) name (Some v)
    = mkSetResult (Returns None) (ObjPtr s') [] /\
    GetField (ObjPtr s') name = GetReturns (Some v) None.
Proof.
  intros Hfind Hexp Hty.
  exists (<[i := set_fvalue fld v]> s). split.
  - unfold SetField. rewrite Hfind, Hexp. cbn.
    destruct (decide (ftype fld = TypeOf v)) as [_ | Hne]; [| congruence].
    unfold Set_.
    destruct (decide (ftype fld = TypeOf v)) as [_ | Hne]; [| congruence].
    reflexivity.
  - unfold GetField.
    rewrite (FieldByName_set_fvalue s name i fld v Hfind).
    cbn. rewrite Hexp. reflexivity.
Qed.

End FieldClaims.


(** * Converted writes *)

Section CoercionClaims.

Context `{JSONLib}.
Variable warn : bool.

(** C1 (amended): two successful writes of the same value into
    fields of the same declared type write the same value, which
    [GetField] reads back under either name, whatever the two structs
    hold, whatever the warning flag is, and whatever the two field
    names are, provided that, when an [int64] is written into a text
    field, both names or neither contain "Time" or "time". *)
Theorem SetField_written_value_determined
        (warn' : bool) (s1 s2 : Struct) n1 n2 i1 i2 f1 f2 (v : Dyn) :
  FieldByName s1 n1 = Some (i1, f1) ->
  FieldByName s2 n2 = Some (i2, f2) ->
  ftype f1 = ftype f2 ->
  (ftype f1 = TString -> TypeOf v = TInt64 -> time_named n1 = time_named n2) ->
  sr_outcome (SetField warn (ObjPtr s1) n1 (Some v)) = Returns None ->
  sr_outcome (SetField warn' (ObjPtr s2) n2 (Some v)) = Returns None ->
  exists w,
    GetField (sr_obj (SetField warn (ObjPtr s1) n1 (Some v))) n1
    = GetReturns (Some w) None /\
    GetField (sr_obj (SetField warn' (ObjPtr s2) n2 (Some v))) n2
    = GetReturns (Some w) None.
Proof.
  intros Hf1 Hf2 Hty Hname Hok1 Hok2.
  destruct (SetField_success_inv warn s1 n1 i1 f1 v Hf1 Hok1)
    as (w1 & Hobj1 & Hexp1 & Hw1 & Hhow1).
  destruct (SetField_success_inv warn' s2 n2 i2 f2 v Hf2 Hok2)
    as (w2 & Hobj2 & Hexp2 & Hw2 & Hhow2).
  assert (w1 = w2) as <-.
  { destruct Hhow1 as [[Heq1 ->] | [Hne1 [p1 Hc1]]],
             Hhow2 as [[Heq2 ->] | [Hne2 [p2 Hc2]]].
    - reflexivity.
    - congruence.
    - congruence.
    - rewrite <- Hty in Hc2.
      eapply coerce_value_determined; [exact Hc1 | exact Hc2 |].
      intros Hv Hs. apply Hname; [congruence | exact Hv]. }
  exists w1. rewrite Hobj1, Hobj2.
  split; now apply GetField_stored.
Qed.

(** C4 (amended): an [int64] written into an exported text field
    returns the nil error, prints nothing, and is read back by
    [GetField] as a clock reading when the field name contains "Time"
    or "time", and as its decimal numeral otherwise.  The clock
    reading divides with truncation toward zero and puts one zero in
    front of a component between 0 and 9; for a count that is not
    negative this is hours [v div 3600000000], minutes
    [(v mod 3600000000) div 60000000] and seconds
    [(v mod 60000000) div 1000000], each on two digits at least. *)
Theorem SetField_int64_into_text (s : Struct) name i fld (v : Z) :
  FieldByName s name = Some (i, fld) ->
  exported fld = true ->
  ftype fld = TString ->
  GoInt.int64_range v ->
  (sr_outcome (SetField warn (ObjPtr s) name (Some (DInt64 v))) = Returns None /\
   sr_stdout (SetField warn (ObjPtr s) name (Some (DInt64 v))) = [] /\
   GetField (sr_obj (SetField warn (ObjPtr s) name (Some (DInt64 v)))) name
   = GetReturns (Some (DString (if time_named name then clock_text v
                                else strconv.FormatInt v))) None) /\
  (0 <= v -> clock_text v = padded_clock Z.div Z.modulo v) /\
  parse_decimal (strconv.FormatInt v) = Some v.
Proof.
  intros Hfind Hexp Hty Hv. split; [| split].
  - rewrite <- int64_to_string_spec by exact Hv.
    apply (SetField_coerced_read warn s name i fld (DInt64 v)
             (DString (int64_to_string name v)) [] Hfind Hexp).
    + rewrite Hty. discriminate.
    + rewrite Hty. reflexivity.
    + rewrite Hty. reflexivity.
  - apply clock_text_nonneg.
  - apply strconvFacts.parse_decimal_FormatInt.
    unfold GoInt.int64_range in Hv. lia.
Qed.

(** C5: a value of one of the types [int32], [uint32], [int64],
    [uint64] written into an exported field of type [int32] or
    [uint32] of another type returns the nil error, prints nothing,
    and is read back by [GetField] as the number of the field's range
    that agrees with the source modulo [2^32]. *)
Theorem SetField_integer_truncation (s : Struct) name i fld (d : Dyn) (z : Z) :
  FieldByName s name = Some (i, fld) ->
  exported fld = true ->
  ftype fld = TInt32 \/ ftype fld = TUint32 ->
  int_payload d = Some z ->
  TypeOf d <> ftype fld ->
  exists r,
    sr_outcome (SetField warn (ObjPtr s) name (Some d)) = Returns None /\
    sr_stdout (SetField warn (ObjPtr s) name (Some d)) = [] /\
    GetField (sr_obj (SetField warn (ObjPtr s) name (Some d))) name
    = GetReturns (Some (int_of_type (ftype fld) r)) None /\
    same_low32 r z /\
    range_of_type (ftype fld) r.
Proof.
  intros Hfind Hexp Hty Hd Hne.
  assert (Hdiff : ftype fld <> TypeOf d) by congruence.
  destruct Hty as [Hty | Hty].
  - assert (Hco : coerce warn name (ftype fld) d
                  = Coerced (int_of_type (ftype fld) (GoInt.to_int32 z)) []).
    { rewrite Hty in *.
      destruct d; try discriminate; inversion Hd; subst;
        reflexivity || (exfalso; apply Hne; reflexivity). }
    assert (Hw : ftype fld = TypeOf (int_of_type (ftype fld) (GoInt.to_int32 z)))
      by (rewrite Hty; reflexivity).
    destruct (SetField_coerced_read warn s name i fld d _ [] Hfind Hexp Hdiff Hco Hw)
      as (Hout & Hprinted & Hread).
    exists (GoInt.to_int32 z).
    split; [exact Hout |]. split; [exact Hprinted |]. split; [exact Hread |].
    split.
    + apply (GoIntFacts.to_signed_congr 32). lia.
    + rewrite Hty. apply (GoIntFacts.to_signed_range 32). lia.
  - assert (Hco : coerce warn name (ftype fld) d
                  = Coerced (int_of_type (ftype fld) (GoInt.to_uint32 z)) []).
    { rewrite Hty in *.
      destruct d; try discriminate; inversion Hd; subst;
        reflexivity || (exfalso; apply Hne; reflexivity). }
    assert (Hw : ftype fld = TypeOf (int_of_type (ftype fld) (GoInt.to_uint32 z)))
      by (rewrite Hty; reflexivity).
    destruct (SetField_coerced_read warn s name i fld d _ [] Hfind Hexp Hdiff Hco Hw)
      as (Hout & Hprinted & Hread).
    exists (GoInt.to_uint32 z).
    split; [exact Hout |]. split; [exact Hprinted |]. split; [exact Hread |].
    split.
    + apply (GoIntFacts.to_unsigned_congr 32). lia.
    + rewrite Hty. apply (GoIntFacts.to_unsigned_range 32). lia.
Qed.

(** C8: an array of 16 bytes written into an exported text field
    returns the nil error, prints nothing, and is read back by
    [GetField] as its canonical UUID text: the 32 lower-case
    hexadecimal digits of the bytes in groups of 8, 4, 4, 4 and 12
    separated by hyphens, 36 characters in all. *)
Theorem SetField_uuid_into_text (s : Struct) name i fld (u : list byte) :
  FieldByName s name = Some (i, fld) ->
  exported fld = true ->
  ftype fld = TString ->
  length u = 16%nat ->
  (sr_outcome (SetField warn (ObjPtr s) name (Some (DArr16 u))) = Returns None /\
   sr_stdout (SetField warn (ObjPtr s) name (Some (DArr16 u))) = [] /\
   GetField (sr_obj (SetField warn (ObjPtr s) name (Some (DArr16 u)))) name
   = GetReturns (Some (DString (canonical_uuid u))) None) /\
  String.length (canonical_uuid u) = 36%nat.
Proof.
  intros Hfind Hexp Hty Hlen.
  destruct (uuid_String_canonical u Hlen) as [Hcanon Hsize].
  split; [| exact Hsize].
  rewrite <- Hcanon.
  apply (SetField_coerced_read warn s name i fld (DArr16 u)
           (DString (uuid.String_ u)) [] Hfind Hexp).
  - rewrite Hty. discriminate.
  - rewrite Hty. reflexivity.
  - rewrite Hty. reflexivity.
Qed.

End CoercionClaims.


(** * The batch setter *)

Section BatchClaims.

Context `{JSONLib}.
Variable warn : bool.

(** C3: with fewer values than names the batch returns the arity
    error at once; the object is the one passed in and nothing is
    printed. *)
Theorem SetFields_too_few_values (obj : Obj) names (vals : list Iface) :
  (length vals < length names)%nat ->
  SetFields warn obj names vals
  = mkSetResult (Returns (Some EfieldNameCountNotEqualToFieldValues)) obj [].
Proof.
  intros Hlt. unfold SetFields.
  destruct (Nat.ltb_spec (length vals) (length names)); [reflexivity | lia].
Qed.

(** C2 (amended): with at least as many values as names, a batch in
    which no write panics performs one write per name, in order, each
    on the object left by the one before, also after a write that
    returned an error, and returns the error of the last write that
    failed, or nil when none did.  A write that panics ends the batch
    with that panic: the object is the one the writes before it left,
    and the names after it are not written. *)
Theorem SetFields_returns_last_error (obj : Obj) names (vals : list Iface) :
  (length names <= length vals)%nat ->
  (Forall returned (trace warn obj (zip names vals)) ->
   length (trace warn obj (zip names vals)) = length names /\
   SetFields warn obj names vals
   = mkSetResult (Returns (last_failure (trace warn obj (zip names vals))))
                 (final_obj obj (trace warn obj (zip names vals)))
                 (all_stdout (trace warn obj (zip names vals)))) /\
  (forall k r p,
   trace warn obj (zip names vals) !! k = Some r ->
   sr_outcome r = Panics p ->
   Forall returned (take k (trace warn obj (zip names vals))) ->
   SetFields warn obj names vals
   = mkSetResult (Panics p) (sr_obj r)
                 (all_stdout (take (S k) (trace warn obj (zip names vals))))).
Proof.
  intros Hle. unfold SetFields.
  destruct (Nat.ltb_spec (length vals) (length names)); [lia |].
  split.
  - intros Hret.
    destruct (SetFields_loop_trace warn names vals obj 0%nat None [])
      as [Hlen Heq].
    + cbn. lia.
    + rewrite drop_0. exact Hret.
    + rewrite drop_0 in Hlen, Heq. split; [exact Hlen |].
      rewrite Heq. unfold kept_error.
      destruct (last_failure (trace warn obj (zip names vals))); reflexivity.
  - intros k r p Hk Hp Hbefore.
    pose proof (SetFields_loop_panic warn names vals obj 0%nat None [] k r p)
      as Hloop.
    rewrite drop_0 in Hloop.
    exact (Hloop ltac:(cbn; lia) Hk Hp Hbefore).
Qed.


End BatchClaims.


(** * Parsing a timestamp *)

Section TimeClaims.

Context `{TimeLib}.

(** C9: [ParseUTCTime] has a timestamp for every string and no error:
    it asks [time.Parse] to read the string against the layout
    [2006-01-02 15:04:05], gives the timestamp [time.Parse] produced
    when it accepted the string, and gives the zero [time.Time] when
    it reported an error, whatever the error is. *)
Theorem ParseUTCTime_swallows_errors (timeStr : string) :
  (forall t, time_Parse "2006-01-02 15:04:05" timeStr = inl t ->
             ParseUTCTime timeStr = t) /\
  (forall e, time_Parse "2006-01-02 15:04:05" timeStr = inr e ->
             ParseUTCTime timeStr = Time_zero).
Proof.
  unfold ParseUTCTime, ISOTimeFormat. split.
  - intros t ->. reflexivity.
  - intros e ->. reflexivity.
Qed.

End TimeClaims.


(** * Further properties of the field accessors *)

(** ** Lookup and the static part of a struct *)

Section LookupFacts.

Context `{TimeLib}.


Lemma set_fvalue_twice (fld : Field) w1 w2 :
  set_fvalue (set_fvalue fld w1) w2 = set_fvalue fld w2.
Proof. reflexivity. Qed.




(** A write under one name does not disturb the lookup of another. *)
Lemma FieldByName_insert_other (s : Struct) name other i fld w :
  FieldByName s name = Some (i, fld) ->
  other <> name ->
  FieldByName (<[i := set_fvalue fld w]> s) other = FieldByName s other.
Proof.
  intros Hfind Hne.
  apply FieldByName_Some in Hfind as (Hi & Hname & _).
  unfold FieldByName. destruct (decide (other = "")); [reflexivity |].
  clear n. revert i Hi. induction s as [| f s IH]; intros i Hi; [reflexivity |].
  destruct i as [| i]; cbn in Hi |- *.
  - injection Hi as ->.
    destruct (decide (fname fld = other)); [congruence |].
    reflexivity.
  - destruct (decide (fname f = other)); [reflexivity |].
    f_equal. exact (IH i Hi).
Qed.


End LookupFacts.

(** ** The algebra of writes *)

Section WriteAlgebra.

Context `{JSONLib}.
Variable warn : bool.

(** [SetField] on a pointer to a struct, in terms of [write_effect]. *)
Lemma SetField_ObjPtr (s : Struct) name (val : Dyn) :
  SetField warn (ObjPtr s) name (Some val)
  = match FieldByName s name with
    | None => mkSetResult (Returns (Some (ErrNoSuchField name))) (ObjPtr s) []
    | Some (i, fld) =>
        let '(o, w, p) := write_effect warn name (ftype fld) (exported fld) val in
        mkSetResult o (ObjPtr (store s i fld w)) p
    end.
Proof.
  unfold SetField, write_effect, Set_, store.
  destruct (FieldByName s name) as [[i fld] |]; [| reflexivity].
  destruct (exported fld); cbn [negb]; [| reflexivity].
  destruct (decide (ftype fld = TypeOf val)); [reflexivity |].
  destruct (coerce warn name (ftype fld) val) as [val' printed | e | |];
    try reflexivity.
  destruct (decide (ftype fld = TypeOf val')); reflexivity.
Qed.

(** A value is stored exactly when the call returns the nil error. *)
Lemma write_effect_stores name t exp (val : Dyn) o w p :
  write_effect warn name t exp val = (o, w, p) ->
  (o = Returns None <-> is_Some w).
Proof.
  unfold write_effect. intros Heff.
  destruct exp; cbn [negb] in Heff.
  - destruct (decide (t = TypeOf val)).
    + inversion Heff; subst. split; eauto.
    + destruct (coerce warn name t val) as [val' printed | e | |];
        try (inversion Heff; subst; split;
             [discriminate | intros [? ?]; discriminate]).
      destruct (decide (t = TypeOf val'));
        inversion Heff; subst; split; eauto;
        try discriminate; intros [? ?]; discriminate.
  - inversion Heff; subst. split; [discriminate | intros [? ?]; discriminate].
Qed.

(** The object after a write is the object before, or the struct with
    one value replaced in the field the name finds. *)
Lemma SetField_obj_cases (obj : Obj) name (value : Iface) :
  sr_obj (SetField warn obj name value) = obj \/
  exists (s : Struct) i fld w,
    obj = ObjPtr s /\ FieldByName s name = Some (i, fld) /\
    sr_outcome (SetField warn obj name value) = Returns None /\
    sr_obj (SetField warn obj name value) = ObjPtr (<[i := set_fvalue fld w]> s).
Proof.
  destruct value as [val |]; [| left; reflexivity].
  destruct obj as [s | s | | | |]; try (left; reflexivity).
  rewrite SetField_ObjPtr.
  destruct (FieldByName s name) as [[i fld] |] eqn:Hfind; [| left; reflexivity].
  destruct (write_effect warn name (ftype fld) (exported fld) val)
    as [[o w] p] eqn:Heff.
  pose proof (write_effect_stores _ _ _ _ _ _ _ Heff) as Hst.
  destruct w as [w |]; [| left; reflexivity].
  assert (o = Returns None) as -> by (apply Hst; eauto).
  right. exists s, i, fld, w. cbn. auto.
Qed.


End WriteAlgebra.

Section WriteProperties.

Context `{JSONLib}.
Variable warn : bool.


(** X2: a [SetField] call that does not return the nil error leaves
    the object exactly as it was: no field is changed by a call that
    fails or panics. *)
Theorem SetField_changes_only_on_success (obj : Obj) name (value : Iface) :
  sr_outcome (SetField warn obj name value) = Returns None \/
  sr_obj (SetField warn obj name value) = obj.
Proof.
  destruct (SetField_obj_cases warn obj name value)
    as [Hsame | (s & i & fld & w & _ & _ & Hok & _)]; auto.
Qed.


(** X4: how a write of a value ends and what it prints do not depend
    on an earlier write under the same name, and when it succeeds the
    object is the one the write alone would have produced: the last
    write wins. *)
Theorem SetField_last_write_wins (obj : Obj) name (first : Iface) (val : Dyn) :
  let after_first := sr_obj (SetField warn obj name first) in
  let again := SetField warn after_first name (Some val) in
  let alone := SetField warn obj name (Some val) in
  sr_outcome again = sr_outcome alone /\
  sr_stdout again = sr_stdout alone /\
  (sr_outcome again <> Returns None \/ sr_obj again = sr_obj alone).
Proof.
  cbv zeta.
  destruct (SetField_obj_cases warn obj name first)
    as [-> | (s & i & fld & w & -> & Hfind & _ & ->)]; [auto |].
  rewrite !SetField_ObjPtr.
  rewrite (FieldByName_set_fvalue s name i fld w Hfind), Hfind.
  change (ftype (set_fvalue fld w)) with (ftype fld).
  change (exported (set_fvalue fld w)) with (exported fld).
  destruct (write_effect warn name (ftype fld) (exported fld) val)
    as [[o w2] p] eqn:Heff.
  cbn. repeat split.
  pose proof (write_effect_stores warn _ _ _ _ _ _ _ Heff) as Hst.
  destruct w2 as [w2 |].
  - right. cbn [store]. now rewrite list_insert_insert_eq.
  - left. intros Ho. apply Hst in Ho as [? ?]. discriminate.
Qed.


End WriteProperties.
(** ** Presence of a field *)

Section PresenceProperties.

Context `{JSONLib}.
Variable warn : bool.



End PresenceProperties.

(** ** More on the conversion switch *)

Section MoreCoercions.

Context `{JSONLib}.
Variable warn : bool.

(** X8: an [int32] written into an exported text field returns the
    nil error and is read back by [GetField] as a decimal numeral of
    the number; the call prints one warning line naming the field and
    the type when the warning flag is set, and nothing otherwise. *)
Theorem SetField_int32_into_text (s : Struct) name i fld (v : Z) :
  FieldByName s name = Some (i, fld) ->
  exported fld = true ->
  ftype fld = TString ->
  GoInt.int32_range v ->
  exists text,
    sr_outcome (SetField warn (ObjPtr s) name (Some (DInt32 v))) = Returns None /\
    sr_stdout (SetField warn (ObjPtr s) name (Some (DInt32 v)))
    = (if warn then ["setfield to string warn: " +:+ name +:+ " int32"]
       else []) /\
    GetField (sr_obj (SetField warn (ObjPtr s) name (Some (DInt32 v)))) name
    = GetReturns (Some (DString text)) None /\
    parse_decimal text = Some v.
Proof.
  intros Hfind Hexp Hty Hv. exists (strconv.Itoa v).
  destruct (SetField_coerced_read warn s name i fld (DInt32 v)
              (DString (strconv.Itoa v))
              (if warn then [fmt.Println ["setfield to string warn:"; name; "int32"]]
               else []) Hfind Hexp) as (Hout & Hprinted & Hread).
  - rewrite Hty. discriminate.
  - rewrite Hty. destruct warn; reflexivity.
  - rewrite Hty. reflexivity.
  - split; [exact Hout |]. split; [| split; [exact Hread |]].
    + rewrite Hprinted. destruct warn; reflexivity.
    + apply strconvFacts.parse_decimal_FormatInt.
      unfold GoInt.int32_range in Hv. lia.
Qed.

(** X9: a byte slice written into an exported text field returns the
    nil error, prints nothing, and is read back by [GetField] byte for
    byte: the text has the bytes of the slice, in order. *)
Theorem SetField_bytes_into_text (s : Struct) name i fld (b : list byte) :
  FieldByName s name = Some (i, fld) ->
  exported fld = true ->
  ftype fld = TString ->
  exists text,
    sr_outcome (SetField warn (ObjPtr s) name (Some (DBytes b))) = Returns None /\
    sr_stdout (SetField warn (ObjPtr s) name (Some (DBytes b))) = [] /\
    GetField (sr_obj (SetField warn (ObjPtr s) name (Some (DBytes b)))) name
    = GetReturns (Some (DString text)) None /\
    list_byte_of_string text = b.
Proof.
  intros Hfind Hexp Hty. exists (string_of_list_byte b).
  destruct (SetField_coerced_read warn s name i fld (DBytes b)
              (DString (string_of_list_byte b)) [] Hfind Hexp)
    as (Hout & Hprinted & Hread).
  - rewrite Hty. discriminate.
  - rewrite Hty. reflexivity.
  - rewrite Hty. reflexivity.
  - split; [exact Hout |]. split; [exact Hprinted |]. split; [exact Hread |].
    apply list_byte_of_string_of_list_byte.
Qed.

(** X10: the switch converts into text, [int32] and [uint32] fields
    only.  A value whose type differs from the type of an exported
    field of any other kind is refused with the type-mismatch error,
    which is printed, and nothing is written; so an [int32] is not
    widened into an [int64] field. *)
Theorem SetField_no_rule_for_other_kinds (s : Struct) name i fld (val : Dyn) :
  FieldByName s name = Some (i, fld) ->
  exported fld = true ->
  KindOf (ftype fld) <> KString ->
  KindOf (ftype fld) <> KInt32 ->
  KindOf (ftype fld) <> KUint32 ->
  ftype fld <> TypeOf val ->
  SetField warn (ObjPtr s) name (Some val)
  = mkSetResult
      (Returns (Some (ErrInvalidType name (ftype fld) (TypeOf val))))
      (ObjPtr s)
      [name +:+ " " +:+ name +:+ ": value type didn't match obj field type "
         +:+ TypeString (ftype fld) +:+ ":" +:+ TypeString (TypeOf val)].
Proof.
  intros Hfind Hexp Hs H32 Hu32 Hne.
  rewrite SetField_ObjPtr, Hfind. unfold write_effect. rewrite Hexp. cbn [negb].
  destruct (decide (ftype fld = TypeOf val)); [contradiction |].
  unfold coerce.
  destruct (KindOf (ftype fld)); try contradiction; reflexivity.
Qed.

(** X11: a field whose type is a defined type takes values of exactly
    that type only: a write of a value of any other type never
    succeeds, and where the switch has a rule for the kind (here an
    [int64] for a defined type of kind [int32]) the call panics in
    [reflect.Set] instead of returning an error. *)
Theorem SetField_defined_type_field (s : Struct) name i fld tn t (val : Dyn) :
  FieldByName s name = Some (i, fld) ->
  exported fld = true ->
  ftype fld = TNamed tn t ->
  TypeOf val <> ftype fld ->
  sr_outcome (SetField warn (ObjPtr s) name (Some val)) <> Returns None /\
  sr_obj (SetField warn (ObjPtr s) name (Some val)) = ObjPtr s /\
  (KindOf t = KInt32 -> forall z, val = DInt64 z ->
   sr_outcome (SetField warn (ObjPtr s) name (Some val)) = Panics PanicSet).
Proof.
  intros Hfind Hexp Hty Hne.
  assert (Hplain : forall w p, coerce warn name (ftype fld) val = Coerced w p ->
                               ftype fld <> TypeOf w).
  { intros w p Hco. rewrite Hty. unfold coerce in Hco.
    repeat match type of Hco with
           | context [match ?x with _ => _ end] => destruct x; try discriminate
           end;
      inversion Hco; discriminate. }
  assert (Hrule : KindOf t = KInt32 -> forall z, val = DInt64 z ->
                  exists w p, coerce warn name (ftype fld) val = Coerced w p).
  { intros Hk z ->. rewrite Hty. unfold coerce. cbn [KindOf]. rewrite Hk.
    cbn. eauto. }
  rewrite SetField_ObjPtr, Hfind. unfold write_effect. rewrite Hexp. cbn [negb].
  destruct (decide (ftype fld = TypeOf val)) as [Heq | _]; [congruence |].
  destruct (coerce warn name (ftype fld) val) as [w p | e | |].
  - destruct (decide (ftype fld = TypeOf w)) as [Heq | _];
      [exfalso; exact (Hplain w p eq_refl Heq) |].
    cbn. split; [discriminate | split; [reflexivity | reflexivity]].
  - cbn. split; [discriminate | split; [reflexivity |]].
    intros Hk z Hz. destruct (Hrule Hk z Hz) as (? & ? & ?). discriminate.
  - cbn. split; [discriminate | split; [reflexivity |]].
    intros Hk z Hz. destruct (Hrule Hk z Hz) as (? & ? & ?). discriminate.
  - cbn. split; [discriminate | split; [reflexivity |]].
    intros Hk z Hz. destruct (Hrule Hk z Hz) as (? & ? & ?). discriminate.
Qed.

(** X12: a [time.Time] written into an exported text field returns
    the nil error, prints nothing, and is read back by [GetField] as
    the time formatted with the layout [2006-01-02 15:04:05]. *)
Theorem SetField_time_into_text (s : Struct) name i fld (t : Time) :
  FieldByName s name = Some (i, fld) ->
  exported fld = true ->
  ftype fld = TString ->
  sr_outcome (SetField warn (ObjPtr s) name (Some (DTime t))) = Returns None /\
  sr_stdout (SetField warn (ObjPtr s) name (Some (DTime t))) = [] /\
  GetField (sr_obj (SetField warn (ObjPtr s) name (Some (DTime t)))) name
  = GetReturns (Some (DString (time_Format t "2006-01-02 15:04:05"))) None.
Proof.
  intros Hfind Hexp Hty.
  apply (SetField_coerced_read warn s name i fld (DTime t)
           (DString (TimeISOStr t)) [] Hfind Hexp).
  - rewrite Hty. discriminate.
  - rewrite Hty. reflexivity.
  - rewrite Hty. reflexivity.
Qed.

(** X13: a [map[string]interface {}] written into an exported text
    field goes through [json.Marshal]: when that succeeds the call
    returns the nil error and [GetField] reads back the bytes
    produced, as a text; when it fails the call returns that very
    error and leaves the object as it was.  Nothing is printed either
    way. *)
Theorem SetField_map_into_text (s : Struct) name i fld
        (m : list (string * option Dyn)) :
  FieldByName s name = Some (i, fld) ->
  exported fld = true ->
  ftype fld = TString ->
  (forall b, json_Marshal m = inl b ->
     sr_outcome (SetField warn (ObjPtr s) name (Some (DMap m))) = Returns None /\
     sr_stdout (SetField warn (ObjPtr s) name (Some (DMap m))) = [] /\
     GetField (sr_obj (SetField warn (ObjPtr s) name (Some (DMap m)))) name
     = GetReturns (Some (DString b)) None) /\
  (forall msg, json_Marshal m = inr msg ->
     SetField warn (ObjPtr s) name (Some (DMap m))
     = mkSetResult (Returns (Some (ErrMarshal msg))) (ObjPtr s) [] /\
     Error (ErrMarshal msg) = msg).
Proof.
  intros Hfind Hexp Hty. split.
  - intros b Hb.
    apply (SetField_coerced_read warn s name i fld (DMap m) (DString b) []
             Hfind Hexp).
    + rewrite Hty. discriminate.
    + rewrite Hty. cbn. now rewrite Hb.
    + rewrite Hty. reflexivity.
  - intros msg Hmsg. split; [| reflexivity].
    rewrite SetField_ObjPtr, Hfind. unfold write_effect.
    rewrite Hexp, Hty. cbn. now rewrite Hmsg.
Qed.

End MoreCoercions.
Section IntegerRoundTrip.

Context `{JSONLib}.
Variable warn : bool.

Lemma to_uint32_to_int32 u :
  GoInt.uint32_range u -> GoInt.to_uint32 (GoInt.to_int32 u) = u.
Proof.
  intros Hu. unfold GoInt.to_uint32, GoInt.to_int32.
  rewrite GoIntFacts.to_unsigned_mod by lia.
  rewrite GoIntFacts.to_signed_congr by lia.
  apply Z.mod_small. exact Hu.
Qed.

(** X14: the reinterpretation between [uint32] and [int32] loses
    nothing: a [uint32] written into an [int32] field, read back and
    written into a [uint32] field is read there as the number it
    was. *)
Theorem SetField_uint32_int32_roundtrip (s : Struct) nI nU i j fI fU (u : Z) :
  FieldByName s nI = Some (i, fI) -> exported fI = true -> ftype fI = TInt32 ->
  FieldByName s nU = Some (j, fU) -> exported fU = true -> ftype fU = TUint32 ->
  GoInt.uint32_range u ->
  exists r,
    let obj1 := sr_obj (SetField warn (ObjPtr s) nI (Some (DUint32 u))) in
    GetField obj1 nI = GetReturns (Some (DInt32 r)) None /\
    GetField (sr_obj (SetField warn obj1 nU (Some (DInt32 r)))) nU
    = GetReturns (Some (DUint32 u)) None.
Proof.
  intros HfI HeI HtI HfU HeU HtU Hu.
  assert (Hne : nU <> nI) by (intros ->; congruence).
  exists (GoInt.to_int32 u). cbv zeta.
  rewrite (SetField_coerced warn s nI i fI (DUint32 u)
             (DInt32 (GoInt.to_int32 u)) []); try assumption;
    try (rewrite HtI; (discriminate || reflexivity)).
  cbn [sr_obj]. split.
  - unfold GetField. rewrite (FieldByName_set_fvalue s nI i fI _ HfI).
    cbn. now rewrite HeI.
  - pose proof (FieldByName_insert_other s nI nU i fI
                  (DInt32 (GoInt.to_int32 u)) HfI Hne) as HfU'.
    rewrite HfU in HfU'.
    rewrite (SetField_coerced warn _ nU j fU (DInt32 (GoInt.to_int32 u))
               (DUint32 (GoInt.to_uint32 (GoInt.to_int32 u))) []);
      try assumption; try (rewrite HtU; (discriminate || reflexivity)).
    cbn [sr_obj]. unfold GetField.
    rewrite (FieldByName_set_fvalue _ nU j fU _ HfU').
    cbn. rewrite HeU, to_uint32_to_int32 by exact Hu. reflexivity.
Qed.

End IntegerRoundTrip.

(** ** Composition of batches *)

Section BatchComposition.

Context `{JSONLib}.
Variable warn : bool.

(** The loop reads the values relative to its start index. *)
Lemma SetFields_loop_shift names : forall (vals vals' : list Iface) obj i j err printed,
  (forall k, (k < length names)%nat -> vals !! (i + k)%nat = vals' !! (j + k)%nat) ->
  SetFields_loop warn obj i names vals err printed
  = SetFields_loop warn obj j names vals' err printed.
Proof.
  induction names as [| name rest IH]; intros vals vals' obj i j err printed Hsame;
    cbn [SetFields_loop]; [reflexivity |].
  pose proof (Hsame 0%nat ltac:(cbn; lia)) as Hfirst.
  rewrite !Nat.add_0_r in Hfirst. rewrite <- Hfirst.
  destruct (vals !! i) as [v |]; [| reflexivity].
  destruct (sr_outcome (SetField warn obj name v)) as [errTmp |]; [| reflexivity].
  apply IH. intros k Hk.
  replace (S i + k)%nat with (i + S k)%nat by lia.
  replace (S j + k)%nat with (j + S k)%nat by lia.
  apply Hsame. cbn. lia.
Qed.

(** The error and the output accumulated so far pass through the
    loop. *)
Lemma SetFields_loop_acc names : forall (vals : list Iface) obj i err printed,
  SetFields_loop warn obj i names vals err printed
  = let r := SetFields_loop warn obj i names vals None [] in
    mkSetResult
      (match sr_outcome r with
       | Returns None => Returns err
       | o => o
       end)
      (sr_obj r) (printed ++ sr_stdout r).
Proof.
  induction names as [| name rest IH]; intros vals obj i err printed;
    cbn [SetFields_loop].
  - cbn. now rewrite app_nil_r.
  - destruct (vals !! i) as [v |]; [| cbn; now rewrite app_nil_r].
    destruct (sr_outcome (SetField warn obj name v)) as [errTmp | p];
      [| reflexivity].
    rewrite IH. rewrite (IH _ _ _ (match errTmp with Some _ => errTmp | None => None end)).
    cbv zeta. cbn [sr_outcome sr_obj sr_stdout]. rewrite app_assoc.
    destruct (sr_outcome (SetFields_loop warn _ (S i) rest vals None []))
      as [[e |] |]; destruct errTmp; reflexivity.
Qed.

Lemma SetFields_loop_app n1 : forall n2 (vals : list Iface) obj i err printed,
  SetFields_loop warn obj i (n1 ++ n2) vals err printed
  = let r1 := SetFields_loop warn obj i n1 vals err printed in
    match sr_outcome r1 with
    | Panics _ => r1
    | Returns e =>
        SetFields_loop warn (sr_obj r1) (i + length n1) n2 vals e (sr_stdout r1)
    end.
Proof.
  induction n1 as [| name rest IH]; intros n2 vals obj i err printed.
  - cbn. now rewrite Nat.add_0_r.
  - cbn [app SetFields_loop length].
    destruct (vals !! i) as [v |]; [| reflexivity].
    destruct (sr_outcome (SetField warn obj name v)) as [errTmp | p];
      [| reflexivity].
    rewrite IH. cbv zeta.
    now replace (S i + length rest)%nat with (i + S (length rest))%nat by lia.
Qed.

(** X15: a batch on concatenated names and values is the batch on the
    first part followed, on the object it leaves, by the batch on the
    second part: the output is the two outputs in order and the error
    is that of the second batch, or of the first when the second
    returns nil.  When the first batch panics, so does the whole, at
    the same point.  (The first part has as many values as names, the
    second at least as many.) *)
Theorem SetFields_app (obj : Obj) n1 n2 (v1 v2 : list Iface) :
  length n1 = length v1 ->
  (length n2 <= length v2)%nat ->
  let r1 := SetFields warn obj n1 v1 in
  let r2 := SetFields warn (sr_obj r1) n2 v2 in
  SetFields warn obj (n1 ++ n2) (v1 ++ v2)
  = match sr_outcome r1 with
    | Panics _ => r1
    | Returns e1 =>
        mkSetResult
          (match sr_outcome r2 with
           | Returns None => Returns e1
           | o => o
           end)
          (sr_obj r2) (sr_stdout r1 ++ sr_stdout r2)
    end.
Proof.
  intros Hl1 Hl2. cbv zeta. unfold SetFields.
  rewrite !length_app.
  destruct (Nat.ltb_spec (length v1 + length v2) (length n1 + length n2)); [lia |].
  destruct (Nat.ltb_spec (length v1) (length n1)); [lia |].
  rewrite SetFields_loop_app. cbv zeta.
  rewrite (SetFields_loop_shift n1 (v1 ++ v2) v1 obj 0 0 None [])
    by (intros k Hk; cbn; apply lookup_app_l; lia).
  destruct (sr_outcome (SetFields_loop warn obj 0 n1 v1 None [])) as [e1 | p];
    [| reflexivity].
  destruct (Nat.ltb_spec (length v2) (length n2)); [lia |].
  rewrite (SetFields_loop_shift n2 (v1 ++ v2) v2 _ (0 + length n1) 0)
    by (intros k Hk; cbn; rewrite lookup_app_r by lia; f_equal; lia).
  apply SetFields_loop_acc.
Qed.

End BatchComposition.

(** * Properties of the walks *)

Section ValInduction.

Context `{TimeLib}.
Variable P : Val -> Prop.
Hypothesis Hstruct : forall fs, Forall (fun p => P p.2) fs -> P (VStruct fs).
Hypothesis Hptr : forall fs, Forall (fun p => P p.2) fs -> P (VPtr fs).
Hypothesis Hnilptr : P VNilPtr.
Hypothesis Hptrother : P VPtrOther.
Hypothesis Hnil : P VNil.
Hypothesis Hscalar : forall d, P (VScalar d).

(** Induction on a value with the values of its fields. *)
Lemma Val_fields_ind : forall v, P v.
Proof.
  fix IH 1. intros [fs | fs | | | | d].
  - apply Hstruct. induction fs as [| [f x] rest IHrest]; constructor;
      [apply IH | exact IHrest].
  - apply Hptr. induction fs as [| [f x] rest IHrest]; constructor;
      [apply IH | exact IHrest].
  - exact Hnilptr.
  - exact Hptrother.
  - exact Hnil.
  - apply Hscalar.
Qed.

End ValInduction.

Section WalkFacts.

Context `{TimeLib}.

(** Every walk handles a pointer to a struct as the struct. *)
Lemma walks_through_pointer fs deep key first :
  fields (VPtr fs) deep = fields (VStruct fs) deep /\
  items (VPtr fs) deep = items (VStruct fs) deep /\
  tags (VPtr fs) key deep = tags (VStruct fs) key deep /\
  GetStructAllFieldNamesAndJsonTag (VPtr fs) deep first
  = GetStructAllFieldNamesAndJsonTag (VStruct fs) deep first.
Proof. repeat split. Qed.

Lemma walks_agree_loops deep key (fs : list (StructField * Val)) :
  Forall (fun p => walks_agree (fields p.2 deep) (items p.2 deep)
                     (tags p.2 key deep)
                     (GetStructAllFieldNamesAndJsonTag p.2 deep true)) fs ->
  forall accF (accI : gmap string Val) (accT accJ : gmap string string),
    dom accI = list_to_set accF -> dom accT = list_to_set accF ->
    dom accJ = list_to_set accF ->
    walks_agree
      (fields_loop deep (fun v => fields v deep) fs accF)
      (items_loop deep (fun v => items v deep) fs accI)
      (tags_loop deep key (fun v => tags v key deep) fs accT)
      (json_loop deep true
         (fun v => GetStructAllFieldNamesAndJsonTag v deep true) fs accJ).
Proof.
  induction 1 as [| [f x] rest Hx _ IH]; intros accF accI accT accJ HI HT HJ.
  - cbn. auto.
  - cbn [fields_loop items_loop tags_loop json_loop].
    destruct (IsExportableField f); [| now apply IH].
    destruct (deep && Anonymous f).
    + cbn [snd] in Hx. unfold walks_agree in Hx.
      destruct (fields x deep) as [ns [e1 |] |],
               (items x deep) as [m [e2 |] |],
               (tags x key deep) as [t [e3 |] |],
               (GetStructAllFieldNamesAndJsonTag x deep true) as [j [e4 |] |];
        try contradiction; try exact I; try exact Hx.
      destruct Hx as (Hm & Ht & Hj).
      apply IH; rewrite dom_union_L, list_to_set_app_L;
        rewrite ?Hm, ?Ht, ?Hj, ?HI, ?HT, ?HJ; apply (comm_L (∪)).
    + apply IH; rewrite dom_insert_L, list_to_set_app_L;
        rewrite ?HI, ?HT, ?HJ; cbn [list_to_set];
        rewrite (right_id_L ∅ (∪)); apply (comm_L (∪)).
Qed.

End WalkFacts.

Section WalkAgreement.

Context `{TimeLib}.

(** X16: the four walks go through a value alike.  On any value, deep
    or not, [fields], [items], [tags] and
    [GetStructAllFieldNamesAndJsonTag] (keyed by field name) all
    return the nil error, all return an error, or all panic; and when they return, the keys of each map are
    exactly the names [fields] lists. *)
Theorem walks_visit_the_same_fields (obj : Val) (deep : bool) (key : string) :
  walks_agree (fields obj deep) (items obj deep) (tags obj key deep)
              (GetStructAllFieldNamesAndJsonTag obj deep true).
Proof.
  induction obj as [fs IH | fs IH | | | | d] using Val_fields_ind.
  - apply walks_agree_loops; [exact IH | | |]; apply dom_empty_L.
  - apply walks_agree_loops; [exact IH | | |]; apply dom_empty_L.
  - cbn. auto.
  - cbn. auto.
  - cbn. auto.
  - cbn. destruct (KindOf (TypeOf d)); cbn; auto.
Qed.

End WalkAgreement.

Section LoopFacts.

Context `{TimeLib}.

(** Without an exported embedded field the loops do not call the walk
    again, deep or not. *)
Lemma loops_without_exported_embedded deep key first
      (fs : list (StructField * Val)) recF recF' recI recI' recT recT' recJ recJ' :
  Forall (fun p => IsExportableField p.1 && Anonymous p.1 = false) fs ->
  forall accF accI accT accJ,
    fields_loop deep recF fs accF = fields_loop false recF' fs accF /\
    items_loop deep recI fs accI = items_loop false recI' fs accI /\
    tags_loop deep key recT fs accT = tags_loop false key recT' fs accT /\
    json_loop deep first recJ fs accJ = json_loop false first recJ' fs accJ.
Proof.
  induction 1 as [| [f x] rest Hf _ IH]; intros accF accI accT accJ;
    [repeat split |].
  cbn [fields_loop items_loop tags_loop json_loop fst] in *.
  destruct (IsExportableField f); [| apply IH].
  cbn [andb] in Hf. rewrite Hf, andb_false_r. cbn [andb].
  destruct first; apply IH.
Qed.

(** A field that is not exported is passed over. *)
Lemma loops_skip_unexported deep key first recF recI recT recJ
      (fs1 fs2 : list (StructField * Val)) f x :
  IsExportableField f = false ->
  forall accF accI accT accJ,
    fields_loop deep recF (fs1 ++ (f, x) :: fs2) accF
    = fields_loop deep recF (fs1 ++ fs2) accF /\
    items_loop deep recI (fs1 ++ (f, x) :: fs2) accI
    = items_loop deep recI (fs1 ++ fs2) accI /\
    tags_loop deep key recT (fs1 ++ (f, x) :: fs2) accT
    = tags_loop deep key recT (fs1 ++ fs2) accT /\
    json_loop deep first recJ (fs1 ++ (f, x) :: fs2) accJ
    = json_loop deep first recJ (fs1 ++ fs2) accJ.
Proof.
  intros Hf. induction fs1 as [| [g y] rest IH]; intros accF accI accT accJ.
  - cbn [app fields_loop items_loop tags_loop json_loop]. rewrite Hf.
    repeat split.
  - cbn [app fields_loop items_loop tags_loop json_loop].
    destruct (IsExportableField g); [| apply IH].
    destruct (deep && Anonymous g).
    + split; [| split; [| split]].
      * destruct (recF y) as [ns [e |] |]; try reflexivity.
        exact (proj1 (IH _ accI accT accJ)).
      * destruct (recI y) as [m [e |] |]; try reflexivity.
        exact (proj1 (proj2 (IH accF _ accT accJ))).
      * destruct (recT y) as [t [e |] |]; try reflexivity.
        exact (proj1 (proj2 (proj2 (IH accF accI _ accJ)))).
      * destruct (recJ y) as [j [e |] |]; try reflexivity.
        exact (proj2 (proj2 (proj2 (IH accF accI accT _)))).
    + destruct first; apply IH.
Qed.

(** The loop of [fields] on a list of fields in two parts. *)
Lemma fields_loop_app deep recF (fs1 fs2 : list (StructField * Val)) :
  forall acc,
    fields_loop deep recF (fs1 ++ fs2) acc
    = match fields_loop deep recF fs1 acc with
      | Returned names None => fields_loop deep recF fs2 names
      | r => r
      end.
Proof.
  induction fs1 as [| [g y] rest IH]; intros acc; [reflexivity |].
  cbn [app fields_loop].
  destruct (IsExportableField g); [| apply IH].
  destruct (deep && Anonymous g); [| apply IH].
  destruct (recF y) as [ns [e |] |]; [reflexivity | apply IH | reflexivity].
Qed.

(** The names already found stay in front. *)
Lemma fields_loop_prefix deep recF (fs : list (StructField * Val)) :
  forall acc names,
    fields_loop deep recF fs acc = Returned names None ->
    exists more, names = acc ++ more.
Proof.
  induction fs as [| [g y] rest IH]; intros acc names; cbn [fields_loop].
  - intros [= <-]. exists []. now rewrite app_nil_r.
  - destruct (IsExportableField g); [| apply IH].
    destruct (deep && Anonymous g).
    + destruct (recF y) as [ns [e |] |]; try discriminate.
      intros Hl. apply IH in Hl as [more ->]. exists (ns ++ more).
      now rewrite app_assoc.
    + intros Hl. apply IH in Hl as [more ->]. exists (Name g :: more).
      now rewrite <- app_assoc.
Qed.

End LoopFacts.

Section CutFacts.

Lemma before_comma_cons c s :
  before_comma (String c s)
  = if Ascii.eqb c "," then "" else String c (before_comma s).
Proof.
  unfold before_comma. cbn [strings_Cut.Cut String.prefix].
  destruct (ascii_dec "," c) as [<- | Hne].
  - destruct s; reflexivity.
  - destruct (Ascii.eqb_spec c ","); [congruence |].
    now destruct (strings_Cut.Cut s ",") as [[b a] found].
Qed.

(** The text in front of the first comma has no comma, and is the
    whole text when the text has none. *)
Lemma before_comma_spec s :
  strings.Contains (before_comma s) "," = false /\
  (strings.Contains s "," = false -> before_comma s = s) /\
  exists rest, s = before_comma s +:+ rest.
Proof.
  induction s as [| c s (IHno & IHall & rest & IHcut)].
  - repeat split. now exists "".
  - rewrite before_comma_cons.
    destruct (Ascii.eqb_spec c ",") as [-> | Hne].
    + split; [reflexivity | split].
      * intros Hc. cbn [strings.Contains String.prefix] in Hc.
        destruct (ascii_dec "," ","); [| congruence].
        destruct s; discriminate.
      * now exists (String "," s).
    + split; [| split].
      * cbn [strings.Contains String.prefix].
        destruct (ascii_dec "," c); [congruence |]. exact IHno.
      * cbn [strings.Contains String.prefix].
        destruct (ascii_dec "," c); [congruence |].
        cbn [orb]. intros Hs. now rewrite IHall.
      * exists rest. rewrite append_cons. now f_equal.
Qed.

End CutFacts.

Section WalkProperties.

Context `{TimeLib}.

(** X17: on a struct, or a pointer to one, none of whose exported
    fields is embedded, going deep changes nothing: [FieldsDeep],
    [ItemsDeep], [TagsDeep], [GetStructAllFieldNames] and the deep
    [GetStructAllFieldNamesAndJsonTag] give what [Fields], [Items],
    [Tags], [GetStructAllDirectFieldNames] and the shallow
    [GetStructAllFieldNamesAndJsonTag] give. *)
Theorem deep_walks_without_exported_embedded
        (obj : Val) (fs : list (StructField * Val)) key first :
  obj = VStruct fs \/ obj = VPtr fs ->
  Forall (fun p => IsExportableField p.1 && Anonymous p.1 = false) fs ->
  FieldsDeep obj = Fields obj /\
  ItemsDeep obj = Items obj /\
  TagsDeep obj key = Tags obj key /\
  GetStructAllFieldNames obj = GetStructAllDirectFieldNames obj /\
  GetStructAllFieldNamesAndJsonTag obj true first
  = GetStructAllFieldNamesAndJsonTag obj false first.
Proof.
  unfold FieldsDeep, Fields, ItemsDeep, Items, TagsDeep, Tags,
    GetStructAllFieldNames, GetStructAllDirectFieldNames.
  intros [-> | ->] Hfs; cbn [fields items tags GetStructAllFieldNamesAndJsonTag];
    destruct (loops_without_exported_embedded true key first fs
                (fun v => fields v true) (fun v => fields v false)
                (fun v => items v true) (fun v => items v false)
                (fun v => tags v key true) (fun v => tags v key false)
                (fun v => GetStructAllFieldNamesAndJsonTag v true first)
                (fun v => GetStructAllFieldNamesAndJsonTag v false first)
                Hfs [] ∅ ∅ ∅) as (HF & HI & HT & HJ);
    rewrite HF; auto.
Qed.

(** X18: a field that is not exported is invisible to the four walks,
    whatever it holds: with or without it the results are the same,
    even when it is an embedded nil pointer, on which a walk would
    panic. *)
Theorem walks_ignore_unexported_fields
        (fs1 fs2 : list (StructField * Val)) f x deep key first :
  IsExportableField f = false ->
  fields (VStruct (fs1 ++ (f, x) :: fs2)) deep
  = fields (VStruct (fs1 ++ fs2)) deep /\
  items (VStruct (fs1 ++ (f, x) :: fs2)) deep
  = items (VStruct (fs1 ++ fs2)) deep /\
  tags (VStruct (fs1 ++ (f, x) :: fs2)) key deep
  = tags (VStruct (fs1 ++ fs2)) key deep /\
  GetStructAllFieldNamesAndJsonTag (VStruct (fs1 ++ (f, x) :: fs2)) deep first
  = GetStructAllFieldNamesAndJsonTag (VStruct (fs1 ++ fs2)) deep first.
Proof.
  intros Hf. cbn [fields items tags GetStructAllFieldNamesAndJsonTag].
  now apply loops_skip_unexported.
Qed.

(** X19: what an exported embedded field does to [fields].  Going
    deep, an embedded value that is neither a struct nor a pointer
    makes the walk return no name and an error naming the field, and
    an embedded nil pointer makes it panic (the fields in front having
    been walked); not going deep, the walk of a struct returns
    whatever the fields hold, and lists the embedded field under its
    own name. *)
Theorem fields_on_exported_embedded
        (fs1 fs2 : list (StructField * Val)) f names :
  fields (VStruct fs1) true = Returned names None ->
  IsExportableField f = true ->
  Anonymous f = true ->
  (forall d, KindOf (TypeOf d) <> KStruct ->
     fields (VStruct (fs1 ++ (f, VScalar d) :: fs2)) true
     = Returned [] (Some ("cannot get fields in " +:+ Name f +:+ ": "
                            +:+ "cannot use GetField on a non-struct interface"))) /\
  fields (VStruct (fs1 ++ (f, VNilPtr) :: fs2)) true
  = Panicked /\
  (forall x, exists shallow,
     fields (VStruct (fs1 ++ (f, x) :: fs2)) false = Returned shallow None /\
     Name f ∈ shallow).
Proof.
  intros Hfront Hexp Hanon. cbn [fields] in Hfront |- *.
  split; [| split].
  - intros d Hd. rewrite fields_loop_app, Hfront. cbn [fields_loop].
    rewrite Hexp, Hanon. cbn [andb fields no_fields].
    destruct (KindOf (TypeOf d)); try contradiction; reflexivity.
  - rewrite fields_loop_app, Hfront. cbn [fields_loop].
    rewrite Hexp, Hanon. reflexivity.
  - intros x.
    assert (Htotal : forall (fs : list (StructField * Val)) acc,
               exists l, fields_loop false (fun v => fields v false) fs acc
                         = Returned l None).
    { induction fs as [| [g y] rest IH]; intros acc; cbn [fields_loop andb];
        [eauto |].
      destruct (IsExportableField g); apply IH. }
    rewrite fields_loop_app.
    destruct (Htotal fs1 []) as [l ->]. cbn [fields_loop andb]. rewrite Hexp.
    destruct (Htotal fs2 (l ++ [Name f])) as [l' Hl']. rewrite Hl'.
    exists l'. split; [reflexivity |].
    apply fields_loop_prefix in Hl' as [more ->].
    rewrite !elem_of_app, list_elem_of_singleton. auto.
Qed.

Lemma cut_of_loops deep (fs : list (StructField * Val)) :
  Forall (fun p => cut_of (tags p.2 "json" deep)
                     (GetStructAllFieldNamesAndJsonTag p.2 deep true)) fs ->
  forall accT : gmap string string,
    cut_of (tags_loop deep "json" (fun v => tags v "json" deep) fs accT)
           (json_loop deep true
              (fun v => GetStructAllFieldNamesAndJsonTag v deep true) fs
              (before_comma <$> accT)).
Proof.
  induction 1 as [| [f x] rest Hx _ IH]; intros accT.
  - reflexivity.
  - cbn [tags_loop json_loop].
    destruct (IsExportableField f); [| apply IH].
    destruct (deep && Anonymous f).
    + cbn [snd] in Hx. unfold cut_of in Hx.
      destruct (tags x "json" deep) as [t [e |] |],
               (GetStructAllFieldNamesAndJsonTag x deep true) as [j [e' |] |];
        try contradiction; try exact I; try exact Hx.
      subst j. rewrite <- map_fmap_union. apply IH.
    + fold (before_comma (Tag_Get (Tag f) "json")).
      rewrite <- fmap_insert. apply IH.
Qed.

(** X20: keyed by field name, [GetStructAllFieldNamesAndJsonTag] is
    [tags] for the key "json" with every value cut at its first
    comma, and it ends as [tags] does; so no value it returns contains
    a comma: the options of a json tag, such as "omitempty", are
    dropped. *)
Theorem json_names_are_cut_json_tags (obj : Val) (deep : bool) :
  cut_of (tags obj "json" deep) (GetStructAllFieldNamesAndJsonTag obj deep true) /\
  match GetStructAllFieldNamesAndJsonTag obj deep true with
  | Returned j None =>
      map_Forall (fun _ value => strings.Contains value "," = false) j
  | _ => True
  end.
Proof.
  assert (Hcut : cut_of (tags obj "json" deep)
                        (GetStructAllFieldNamesAndJsonTag obj deep true)).
  { induction obj as [fs IH | fs IH | | | | d] using Val_fields_ind;
      cbn [tags GetStructAllFieldNamesAndJsonTag no_fields];
      try reflexivity.
    - rewrite <- (fmap_empty before_comma). now apply cut_of_loops.
    - rewrite <- (fmap_empty before_comma). now apply cut_of_loops.
    - destruct (KindOf (TypeOf d)); cbn; auto; now rewrite fmap_empty. }
  split; [exact Hcut |].
  unfold cut_of in Hcut.
  destruct (tags obj "json" deep) as [t [e |] |],
           (GetStructAllFieldNamesAndJsonTag obj deep true) as [j [e' |] |];
    try contradiction; try exact I.
  subst j. intros name value Hlook.
  rewrite lookup_fmap in Hlook.
  destruct (t !! name) as [raw |]; [| discriminate].
  injection Hlook as <-. apply before_comma_spec.
Qed.

End WalkProperties.

(** ** The walks and the accessors on the same struct *)

Section ViewFacts.

Context `{TimeLib}.
Variable pkg : string.
Hypothesis pkg_nonempty : pkg <> "".





End ViewFacts.

Section ViewProperties.

Context `{JSONLib}.
Variable warn : bool.



End ViewProperties.


(** ** What the shallow walks return *)

Section ShallowWalks.

Context `{TimeLib}.

Lemma fields_loop_shallow recF (fs : list (StructField * Val)) : forall acc,
  fields_loop false recF fs acc
  = Returned (acc ++ ((fun p => Name p.1)
                        <$> filter (fun p => IsExportableField p.1 = true) fs))
             None.
Proof.
  induction fs as [| [f x] rest IH]; intros acc; cbn [fields_loop andb].
  - now rewrite app_nil_r.
  - rewrite filter_cons. cbn [fst].
    destruct (IsExportableField f) eqn:Hf.
    + rewrite IH, decide_True by reflexivity.
      cbn. now rewrite <- app_assoc.
    + rewrite IH, decide_False by discriminate. reflexivity.
Qed.

(** X23: on a struct, or a pointer to one, [Fields] and
    [GetStructAllDirectFieldNames] never fail: they list the names of
    the exported fields, in the order of the declaration, an embedded
    field under its own name, and nothing else. *)
Theorem Fields_lists_exported_names (fs : list (StructField * Val)) :
  Fields (VStruct fs)
  = Returned ((fun p => Name p.1)
                <$> filter (fun p => IsExportableField p.1 = true) fs) None /\
  Fields (VPtr fs) = Fields (VStruct fs) /\
  GetStructAllDirectFieldNames (VStruct fs) = Fields (VStruct fs) /\
  GetStructAllDirectFieldNames (VPtr fs) = Fields (VStruct fs).
Proof.
  unfold GetStructAllDirectFieldNames, Fields. cbn [fields].
  rewrite fields_loop_shallow. repeat split.
Qed.

Lemma json_loop_by_tag recJ (fs : list (StructField * Val)) :
  forall acc : gmap string string,
  exists m,
    json_loop false false recJ fs acc = Returned m None /\
    forall key,
      m !! key
      = match last ((fun p => Name p.1)
                      <$> filter (fun p => IsExportableField p.1 = true
                                           /\ before_comma (Tag_Get (Tag p.1) "json")
                                              = key) fs) with
        | Some name => Some name
        | None => acc !! key
        end.
Proof.
  induction fs as [| [f x] rest IH]; intros acc; cbn [json_loop andb].
  - exists acc. split; reflexivity.
  - destruct (IsExportableField f) eqn:Hf.
    + destruct (IH (<[before_comma (Tag_Get (Tag f) "json") := Name f]> acc))
        as (m & Hm & Hlook).
      exists m. split; [exact Hm |].
      intros key. rewrite Hlook, filter_cons. cbn [fst].
      destruct (decide (before_comma (Tag_Get (Tag f) "json") = key)) as [Hk | Hk].
      * rewrite decide_True by (split; [exact Hf | exact Hk]).
        rewrite fmap_cons, last_cons. cbn [fst].
        destruct (last _); [reflexivity |].
        rewrite <- Hk. apply lookup_insert_eq.
      * rewrite decide_False by (intros [_ ?]; contradiction).
        destruct (last _); [reflexivity |].
        now apply lookup_insert_ne.
    + destruct (IH acc) as (m & Hm & Hlook).
      exists m. split; [exact Hm |].
      intros key. rewrite Hlook, filter_cons. cbn [fst].
      rewrite decide_False by (intros [? _]; congruence). reflexivity.
Qed.

(** X24: keyed by json tag and not going deep,
    [GetStructAllFieldNamesAndJsonTag] never fails on a struct, and
    under a key it holds the name of the last exported field whose
    json tag, cut at its first comma, is that key: of the exported
    fields that share a tag name, or that have none, only the last is
    kept. *)
Theorem json_tag_keys_last_wins (fs : list (StructField * Val)) :
  exists m,
    GetStructAllFieldNamesAndJsonTag (VStruct fs) false false = Returned m None /\
    forall key,
      m !! key
      = last ((fun p => Name p.1)
                <$> filter (fun p => IsExportableField p.1 = true
                                     /\ before_comma (Tag_Get (Tag p.1) "json")
                                        = key) fs).
Proof.
  cbn [GetStructAllFieldNamesAndJsonTag].
  destruct (json_loop_by_tag
              (fun v => GetStructAllFieldNamesAndJsonTag v false false) fs ∅)
    as (m & Hm & Hlook).
  exists m. split; [exact Hm |].
  intros key. rewrite Hlook, lookup_empty.
  destruct (last _); reflexivity.
Qed.

End ShallowWalks.


(** * The properties on the demonstration struct *)

Module Examples.
Import Demo.

Local Existing Instance civilTime.
Local Existing Instance emptyMapJSON.

(** Reading back the [int32] written into [N]. *)
Lemma roundtrip_N :
  exists s',
    SetField true (ObjPtr rec) "N" (Some (DInt32 7))
    = mkSetResult (Returns None) (ObjPtr s') [] /\
    GetField (ObjPtr s') "N" = GetReturns (Some (DInt32 7)) None.
Proof.
  apply (SetField_GetField_roundtrip true rec "N" 2%nat N (DInt32 7));
    reflexivity.
Defined.

(** Three names and two values. *)
Lemma too_few_values :
  SetFields true (ObjPtr rec) ["Count"; "N"; "U"]
            [Some (DString "a"); Some (DInt32 1)]
  = mkSetResult (Returns (Some EfieldNameCountNotEqualToFieldValues))
                (ObjPtr rec) [].
Proof.
  apply (SetFields_too_few_values true (ObjPtr rec)). cbn. lia.
Defined.

(** A batch whose first and last writes fail and whose second write
    succeeds: the second write is made, the last error is returned. *)
Lemma last_error_of_three :
  sr_outcome (SetFields true (ObjPtr rec) ["nope"; "Count"; "hidden"]
                [Some (DInt32 1); Some (DString "five"); Some (DString "x")])
  = Returns (Some (ErrCannotSet "hidden")) /\
  GetField (sr_obj (SetFields true (ObjPtr rec) ["nope"; "Count"; "hidden"]
                      [Some (DInt32 1); Some (DString "five"); Some (DString "x")]))
           "Count"
  = GetReturns (Some (DString "five")) None.
Proof.
  destruct (SetFields_returns_last_error true (ObjPtr rec)
              ["nope"; "Count"; "hidden"]
              [Some (DInt32 1); Some (DString "five"); Some (DString "x")])
    as [Hall _].
  - cbn. lia.
  - destruct Hall as [_ Heq].
    + repeat (constructor; [exact I |]). constructor.
    + rewrite Heq. split; reflexivity.
Defined.


(** A timestamp in the layout is read; February 31 is refused by
    [time.Parse] and comes back as the zero time. *)
Lemma parse_good_and_bad :
  ParseUTCTime "2024-02-03 04:05:06" = CivilTime.mkCivil 2024 2 3 4 5 6 0 /\
  ParseUTCTime "2024-02-31 04:05:06" = CivilTime.zero.
Proof.
  split.
  - exact (proj1 (ParseUTCTime_swallows_errors "2024-02-03 04:05:06")
                   (CivilTime.mkCivil 2024 2 3 4 5 6 0) eq_refl).
  - exact (proj2 (ParseUTCTime_swallows_errors "2024-02-31 04:05:06")
                   "day out of range" eq_refl).
Defined.

(** 3661000000 microseconds into the field [StartTime]. *)
Lemma clock_of_3661000000 :
  sr_outcome (SetField true (ObjPtr rec) "StartTime" (Some (DInt64 3661000000)))
  = Returns None /\
  GetField (sr_obj (SetField true (ObjPtr rec) "StartTime"
                      (Some (DInt64 3661000000)))) "StartTime"
  = GetReturns (Some (DString "01:01:01")) None.
Proof.
  assert (Hrange : GoInt.int64_range 3661000000)
    by (unfold GoInt.int64_range; lia).
  destruct (SetField_int64_into_text true rec "StartTime" 0%nat StartTime
              3661000000 eq_refl eq_refl eq_refl Hrange)
    as [(Hout & _ & Hread) _].
  split; [exact Hout | exact Hread].
Defined.

(** [2^32] as an [int64] into the [int32] field [N], which holds -5,
    is read back as 0. *)
Lemma truncation_of_2_32 :
  GetField (ObjPtr rec) "N" = GetReturns (Some (DInt32 (-5))) None /\
  sr_outcome (SetField true (ObjPtr rec) "N" (Some (DInt64 4294967296)))
  = Returns None /\
  GetField (sr_obj (SetField true (ObjPtr rec) "N" (Some (DInt64 4294967296)))) "N"
  = GetReturns (Some (DInt32 0)) None.
Proof.
  assert (Hne : TypeOf (DInt64 4294967296) <> ftype N) by discriminate.
  destruct (SetField_integer_truncation true rec "N" 2%nat N
              (DInt64 4294967296) 4294967296
              eq_refl eq_refl (or_introl eq_refl) eq_refl Hne)
    as (r & Hout & _ & Hread & Hlow & Hrange).
  assert (r = 0) as ->.
  { unfold same_low32 in Hlow. cbn in Hrange.
    unfold GoInt.int32_range in Hrange.
    change (4294967296 mod 2 ^ 32) with 0 in Hlow.
    apply Z.mod_divide in Hlow; [| lia].
    destruct Hlow as [k Hk]. lia. }
  split; [reflexivity |]. split; [exact Hout | exact Hread].
Defined.

(** The bytes 00 11 22 ... ff into the field [Id]. *)
Lemma uuid_text :
  sr_outcome (SetField true (ObjPtr rec) "Id" (Some (DArr16 uuid16)))
  = Returns None /\
  GetField (sr_obj (SetField true (ObjPtr rec) "Id" (Some (DArr16 uuid16)))) "Id"
  = GetReturns (Some (DString "00112233-4455-6677-8899-aabbccddeeff")) None.
Proof.
  destruct (SetField_uuid_into_text true rec "Id" 5%nat Id uuid16
              eq_refl eq_refl eq_refl eq_refl)
    as [(Hout & _ & Hread) _].
  split; [exact Hout | exact Hread].
Defined.

(** The same [int64] into two text fields neither of which is named
    after a time. *)
Lemma same_value_two_fields :
  exists w,
    GetField (sr_obj (SetField true (ObjPtr rec) "Count" (Some (DInt64 12345))))
             "Count"
    = GetReturns (Some w) None /\
    GetField (sr_obj (SetField false (ObjPtr rec) "Id" (Some (DInt64 12345))))
             "Id"
    = GetReturns (Some w) None.
Proof.
  apply (SetField_written_value_determined true false rec rec "Count" "Id"
           1%nat 5%nat Count Id (DInt64 12345)); try reflexivity.
Defined.

(** C1, as stated, fails: the exported text fields [StartTime] and
    [Count] are read back with different texts after a write of the
    same [int64]. *)
Lemma field_name_changes_written_value :
  GetField (sr_obj (SetField true (ObjPtr rec) "StartTime"
                      (Some (DInt64 3661000000)))) "StartTime"
  = GetReturns (Some (DString "01:01:01")) None /\
  GetField (sr_obj (SetField true (ObjPtr rec) "Count"
                      (Some (DInt64 3661000000)))) "Count"
  = GetReturns (Some (DString "3661000000")) None /\
  ~ (forall (s1 s2 : Struct) n1 n2 i1 i2 f1 f2 (v : Dyn),
        FieldByName s1 n1 = Some (i1, f1) ->
        FieldByName s2 n2 = Some (i2, f2) ->
        ftype f1 = ftype f2 ->
        sr_outcome (SetField true (ObjPtr s1) n1 (Some v)) = Returns None ->
        sr_outcome (SetField true (ObjPtr s2) n2 (Some v)) = Returns None ->
        exists w,
          GetField (sr_obj (SetField true (ObjPtr s1) n1 (Some v))) n1
          = GetReturns (Some w) None /\
          GetField (sr_obj (SetField true (ObjPtr s2) n2 (Some v))) n2
          = GetReturns (Some w) None).
Proof.
  split; [reflexivity |]. split; [reflexivity |].
  intros Hclaim.
  destruct (Hclaim rec rec "StartTime" "Count" 0%nat 1%nat StartTime Count
              (DInt64 3661000000) eq_refl eq_refl eq_refl eq_refl eq_refl)
    as (w & H1 & H2).
  change (GetReturns (Some (DString "01:01:01")) None = GetReturns (Some w) None)
    in H1.
  change (GetReturns (Some (DString "3661000000")) None = GetReturns (Some w) None)
    in H2.
  congruence.
Qed.

(** C2, as stated, fails on a batch in which a write panics: a
    [time.Duration] for the [int32] field [N] fails the type assertion
    of the switch, the batch ends there and returns nothing, and the
    second pair is never applied: [Count] is read as before. *)
Lemma panic_stops_the_batch :
  sr_outcome (SetFields true (ObjPtr rec) ["N"; "Count"]
                [Some (Duration 5); Some (DString "five")])
  = Panics PanicAssertion /\
  GetField (sr_obj (SetFields true (ObjPtr rec) ["N"; "Count"]
                      [Some (Duration 5); Some (DString "five")])) "Count"
  = GetReturns (Some (DString "")) None /\
  ~ (forall (obj : Obj) names (vals : list Iface),
        (length names <= length vals)%nat ->
        SetFields true obj names vals
        = mkSetResult (Returns (last_failure (trace true obj (zip names vals))))
                      (final_obj obj (trace true obj (zip names vals)))
                      (all_stdout (trace true obj (zip names vals)))).
Proof.
  split; [reflexivity |]. split; [reflexivity |].
  intros Hclaim.
  pose proof (Hclaim (ObjPtr rec) ["N"; "Count"]
                [Some (Duration 5); Some (DString "five")]
                ltac:(cbn; lia)) as Heq.
  apply (f_equal sr_outcome) in Heq.
  change (Panics PanicAssertion
          = Returns (last_failure
                       (trace true (ObjPtr rec)
                          (zip ["N"; "Count"]
                               [Some (Duration 5); Some (DString "five")]))))
    in Heq.
  discriminate.
Qed.

(** C4, as stated, fails twice.  A field named [startTime] is not
    exported, and the write of the example is refused: nothing is
    written.  On the exported [StartTime] a negative count is not
    written with every component on two digits: one second before
    midnight is read back as "00:00:-1", whether "div" and "mod"
    truncate or round down. *)
Lemma negative_clock_not_padded :
  SetField true (ObjPtr shift) "startTime" (Some (DInt64 3661000000))
  = mkSetResult (Returns (Some (ErrCannotSet "startTime"))) (ObjPtr shift) [] /\
  Error (ErrCannotSet "startTime") = "cannot set startTime field value" /\
  GetField (sr_obj (SetField true (ObjPtr rec) "StartTime"
                      (Some (DInt64 (-1000000))))) "StartTime"
  = GetReturns (Some (DString "00:00:-1")) None /\
  "00:00:-1" <> padded_clock Z.quot Z.rem (-1000000) /\
  "00:00:-1" <> padded_clock Z.div Z.modulo (-1000000).
Proof.
  split; [reflexivity |]. split; [reflexivity |]. split; [reflexivity |].
  split.
  - vm_compute. discriminate.
  - vm_compute. discriminate.
Qed.

End Examples.

(** * Further properties on the demonstration structs *)

Module MoreExamples.
Import Demo.

Local Existing Instance civilTime.
Local Existing Instance emptyMapJSON.



(** The [int32] 42 into the text field [Count], with the warning. *)
Lemma int32_42_into_Count :
  exists text,
    sr_outcome (SetField true (ObjPtr rec) "Count" (Some (DInt32 42)))
    = Returns None /\
    sr_stdout (SetField true (ObjPtr rec) "Count" (Some (DInt32 42)))
    = ["setfield to string warn: Count int32"] /\
    GetField (sr_obj (SetField true (ObjPtr rec) "Count" (Some (DInt32 42))))
             "Count"
    = GetReturns (Some (DString text)) None /\
    parse_decimal text = Some 42.
Proof.
  assert (Hrange : GoInt.int32_range 42) by (unfold GoInt.int32_range; lia).
  exact (SetField_int32_into_text true rec "Count" 1%nat Count 42
           eq_refl eq_refl eq_refl Hrange).
Defined.

(** The bytes of "hi" into [Count]. *)
Lemma bytes_hi_into_Count :
  exists text,
    sr_outcome (SetField true (ObjPtr rec) "Count" (Some (DBytes [x68; x69])))
    = Returns None /\
    sr_stdout (SetField true (ObjPtr rec) "Count" (Some (DBytes [x68; x69]))) = [] /\
    GetField (sr_obj (SetField true (ObjPtr rec) "Count"
                        (Some (DBytes [x68; x69])))) "Count"
    = GetReturns (Some (DString text)) None /\
    list_byte_of_string text = [x68; x69].
Proof.
  exact (SetField_bytes_into_text true rec "Count" 1%nat Count [x68; x69]
           eq_refl eq_refl eq_refl).
Defined.

(** An [int32] is not widened into the [int64] field [Total]. *)
Lemma int32_into_Total_refused :
  SetField true (ObjPtr account) "Total" (Some (DInt32 5))
  = mkSetResult (Returns (Some (ErrInvalidType "Total" TInt64 TInt32)))
      (ObjPtr account)
      ["Total Total: value type didn't match obj field type int64:int32"].
Proof.
  assert (Hs : KindOf (ftype Total) <> KString) by discriminate.
  assert (H32 : KindOf (ftype Total) <> KInt32) by discriminate.
  assert (Hu32 : KindOf (ftype Total) <> KUint32) by discriminate.
  assert (Hne : ftype Total <> TypeOf (DInt32 5)) by discriminate.
  exact (SetField_no_rule_for_other_kinds true account "Total" 0%nat Total
           (DInt32 5) eq_refl eq_refl Hs H32 Hu32 Hne).
Defined.

(** An [int64] for the field [Level], of a defined type over
    [int32]: the call panics and nothing is written. *)
Lemma int64_into_Level_panics :
  sr_outcome (SetField true (ObjPtr account) "Level" (Some (DInt64 7)))
  = Panics PanicSet /\
  sr_obj (SetField true (ObjPtr account) "Level" (Some (DInt64 7)))
  = ObjPtr account.
Proof.
  assert (Hne : TypeOf (DInt64 7) <> ftype Level) by discriminate.
  destruct (SetField_defined_type_field true account "Level" 2%nat Level
              "main.Level" TInt32 (DInt64 7) eq_refl eq_refl eq_refl Hne)
    as (_ & Hobj & Hpanic).
  split; [exact (Hpanic eq_refl 7 eq_refl) | exact Hobj].
Defined.

(** The largest [uint32] through the [int32] field [N] and back into
    [U]. *)
Lemma max_uint32_through_N :
  exists r,
    GetField (sr_obj (SetField true (ObjPtr rec) "N" (Some (DUint32 4294967295))))
             "N"
    = GetReturns (Some (DInt32 r)) None /\
    GetField (sr_obj (SetField true
                        (sr_obj (SetField true (ObjPtr rec) "N"
                                   (Some (DUint32 4294967295))))
                        "U" (Some (DInt32 r)))) "U"
    = GetReturns (Some (DUint32 4294967295)) None.
Proof.
  assert (Hrange : GoInt.uint32_range 4294967295)
    by (unfold GoInt.uint32_range; lia).
  exact (SetField_uint32_int32_roundtrip true rec "N" "U" 2%nat 3%nat N U
           4294967295 eq_refl eq_refl eq_refl eq_refl eq_refl eq_refl Hrange).
Defined.

(** A batch on two names is the batch on the first followed by the
    batch on the second. *)
Lemma batch_in_two_parts :
  SetFields true (ObjPtr rec) ["Count"; "N"] [Some (DString "a"); Some (DInt32 3)]
  = SetFields true
      (sr_obj (SetFields true (ObjPtr rec) ["Count"] [Some (DString "a")]))
      ["N"] [Some (DInt32 3)].
Proof.
  assert (Hle : (length ["N"] <= length [Some (DInt32 3)])%nat) by (cbn; lia).
  exact (eq_trans (SetFields_app true (ObjPtr rec) ["Count"] ["N"]
                     [Some (DString "a")] [Some (DInt32 3)] eq_refl Hle)
                  eq_refl).
Defined.

(** A time into [Count]. *)
Lemma time_into_Count :
  GetField (sr_obj (SetField true (ObjPtr rec) "Count"
                      (Some (DTime (CivilTime.mkCivil 2024 2 3 4 5 6 0)))))
           "Count"
  = GetReturns (Some (DString "2024-02-03 04:05:06")) None.
Proof.
  exact (proj2 (proj2 (SetField_time_into_text true rec "Count" 1%nat Count
                         (CivilTime.mkCivil 2024 2 3 4 5 6 0)
                         eq_refl eq_refl eq_refl))).
Defined.

(** The empty map into [Count]. *)
Lemma empty_map_into_Count :
  GetField (sr_obj (SetField true (ObjPtr rec) "Count" (Some (DMap [])))) "Count"
  = GetReturns (Some (DString "{}")) None.
Proof.
  exact (proj2 (proj2 (proj1 (SetField_map_into_text true rec "Count" 1%nat Count []
                                eq_refl eq_refl eq_refl) "{}" eq_refl))).
Defined.

(** [Base] has no embedded field: going deep changes nothing. *)
Lemma Base_deep_is_shallow :
  FieldsDeep (VStruct base) = Fields (VStruct base) /\
  ItemsDeep (VStruct base) = Items (VStruct base) /\
  TagsDeep (VStruct base) "json" = Tags (VStruct base) "json" /\
  GetStructAllFieldNames (VStruct base) = GetStructAllDirectFieldNames (VStruct base) /\
  GetStructAllFieldNamesAndJsonTag (VStruct base) true true
  = GetStructAllFieldNamesAndJsonTag (VStruct base) false true.
Proof.
  apply (deep_walks_without_exported_embedded (VStruct base) base "json" true).
  - left. reflexivity.
  - repeat constructor.
Defined.

(** [User] with and without its unexported field [note]. *)
Lemma User_without_note :
  fields (VStruct user) true = fields (VStruct user_front) true /\
  items (VStruct user) true = items (VStruct user_front) true /\
  tags (VStruct user) "json" true = tags (VStruct user_front) "json" true /\
  GetStructAllFieldNamesAndJsonTag (VStruct user) true true
  = GetStructAllFieldNamesAndJsonTag (VStruct user_front) true true.
Proof.
  exact (walks_ignore_unexported_fields user_front [] note.1 note.2
           true "json" true eq_refl).
Defined.

(** [Ranked], whose embedded field is not a struct, and [Outer] with
    a nil pointer in its embedded field. *)
Lemma Outer_embedded :
  fields (VStruct (outer_front
                     ++ (Level_embedded, VScalar (DNamed "main.Level" (DInt32 3)))
                     :: outer_back)) true
  = Returned []
      (Some "cannot get fields in Level: cannot use GetField on a non-struct interface") /\
  fields (VStruct (outer_front ++ (Base_embedded, VNilPtr) :: outer_back)) true
  = Panicked /\
  exists shallow,
    fields (VStruct (outer_front ++ (Base_embedded, VNilPtr) :: outer_back)) false
    = Returned shallow None /\
    "Base" ∈ shallow.
Proof.
  destruct (fields_on_exported_embedded outer_front outer_back Level_embedded ["A"]
              eq_refl eq_refl eq_refl) as (Hscalar & _ & _).
  destruct (fields_on_exported_embedded outer_front outer_back Base_embedded ["A"]
              eq_refl eq_refl eq_refl) as (_ & Hnil & Hshallow).
  assert (Hkind : KindOf (TypeOf (DNamed "main.Level" (DInt32 3))) <> KStruct)
    by discriminate.
  split; [exact (Hscalar (DNamed "main.Level" (DInt32 3)) Hkind) |].
  split; [exact Hnil | exact (Hshallow VNilPtr)].
Defined.




End MoreExamples.
